(** * open-operator: session registry and action dispatcher

    A shallow embedding of [sessionManager.ts] (the session registry) and
    [playwrightRunner.ts] (the action dispatcher), and the properties of
    the session lifecycle that follow from the code.

    Playwright and the uuid generator are outside the repository.  They are
    an environment [Env]: an oracle that, given the calls made so far,
    decides whether the next call rejects and what it resolves to.  Every
    [await] of one invocation runs in sequence; interleaving of several
    invocations is not modelled. *)

From Stdlib Require Import String Ascii List Arith NArith Lia Bool.
From stdpp Require Import gmap strings list fin_maps.

Local Open Scope string_scope.
Local Open Scope list_scope.
Local Open Scope nat_scope.

(** ** JavaScript strings and the operations the dispatcher uses *)

(** The instruction is inspected code unit by code unit, so it is a
    JavaScript string as the language has it: a sequence of UTF-16 code
    units.  (Session ids and error messages are only compared, and stay
    plain strings.) *)
Abbreviation code_unit := N (only parsing).

Abbreviation jsstring := (list N).

(** The JavaScript string of an ASCII literal of the source. *)
Definition js (s : string) : jsstring :=
  map N_of_ascii (list_ascii_of_string s).

Module JsString.

(** [s.startsWith(pat)] *)
Fixpoint startsWith (s pat : jsstring) {struct pat} : bool :=
  match pat with
  | [] => true
  | p :: pat' =>
      match s with
      | [] => false
      | c :: s' => N.eqb c p && startsWith s' pat'
      end
  end.

(** Drop the first [n] code units. *)
Definition skip (n : nat) (s : jsstring) : jsstring := skipn n s.

(** [s.replace(pat, rep)] with a string pattern: only the first
    occurrence of [pat] is replaced. *)
Fixpoint replace (pat rep s : jsstring) : jsstring :=
  if startsWith s pat then rep ++ skip (length pat) s
  else match s with
       | [] => []
       | c :: s' => c :: replace pat rep s'
       end.

(** The code units [trim] strips: the WhiteSpace and LineTerminator
    productions of ECMAScript.  TAB, LF, VT, FF, CR, SP, NBSP, U+1680,
    U+2000 to U+200A, LS, PS, U+202F, U+205F, U+3000 and the BOM. *)
Definition is_space (c : code_unit) : bool :=
  (((0x9 <=? c) && (c <=? 0xD)) || (c =? 0x20) || (c =? 0xA0) ||
   (c =? 0x1680) || ((0x2000 <=? c) && (c <=? 0x200A)) ||
   (c =? 0x2028) || (c =? 0x2029) || (c =? 0x202F) || (c =? 0x205F) ||
   (c =? 0x3000) || (c =? 0xFEFF))%N.

Fixpoint trimStart (s : jsstring) : jsstring :=
  match s with
  | [] => []
  | c :: s' => if is_space c then trimStart s' else s
  end.

Fixpoint trimEnd (s : jsstring) : jsstring :=
  match s with
  | [] => []
  | c :: s' =>
      match trimEnd s' with
      | [] => if is_space c then [] else [c]
      | t => c :: t
      end
  end.

(** [s.trim()] *)
Definition trim (s : jsstring) : jsstring := trimEnd (trimStart s).

(** [s.split(sep)] for a separator of one code unit; the result is
    never empty (one empty string for the empty string). *)
Fixpoint split (sep : code_unit) (s : jsstring) : list jsstring :=
  match s with
  | [] => [[]]
  | c :: s' =>
      if N.eqb c sep then [] :: split sep s'
      else match split sep s' with
           | t :: ts => (c :: t) :: ts
           | [] => [[c]]
           end
  end.

(** [parts.join(sep)] *)
Fixpoint join (sep : jsstring) (parts : list jsstring) : jsstring :=
  match parts with
  | [] => []
  | x :: xs =>
      match xs with
      | [] => x
      | _ :: _ => x ++ sep ++ join sep xs
      end
  end.

(** [!s] for an optional string: [undefined] and the empty string are
    falsy. *)
Definition falsy (s : option jsstring) : bool :=
  match s with
  | None => true
  | Some [] => true
  | Some (_ :: _) => false
  end.

End JsString.

(** ** Data model *)

(** Browser, context and page objects are identified by their address in
    the object heap. *)
Definition handle := nat.

(** [interface Session] *)
Record Session := mkSession {
  browser : handle;
  context : handle;
  page : handle
}.

(** What a heap cell holds: a browser, a context of a browser, or a page
    of a context. *)
Inductive Obj :=
| BrowserObj
| ContextObj (owner : handle)
| PageObj (owner : handle).

(** [type Method] *)
Inductive Method :=
| GOTO | ACT | EXTRACT | OBSERVE | CLOSE | SCREENSHOT | WAIT | NAVBACK.

(** Calls that leave the repository. *)
Inductive Call :=
| CUuidv4
| CLaunch
| CNewContext (b : handle)
| CNewPage (c : handle)
| CContextClose (c : handle)
| CBrowserClose (b : handle)
| CGoto (p : handle) (url : jsstring)
| CClick (p : handle) (selector : jsstring)
| CFill (p : handle) (selector : option jsstring) (text : jsstring)
| CEval (p : handle) (selector : jsstring)
| CWaitForSelector (p : handle) (selector : jsstring)
| CScreenshot (p : handle)
| CWaitForTimeout (p : handle) (duration : jsstring)
| CGoBack (p : handle).

(** Thrown values. *)
Inductive JsError :=
| TypeErrorUndefinedSession
| Error (message : string)
| Rejected (code : nat).

(** Values the dispatcher resolves to. *)
Inductive JsValue :=
| VUndefined
| VNull
| VString (s : jsstring)
| VObserved (selector : jsstring).

(** The environment.  Each field reads the calls made so far, newest
    first. *)
Record Env := mkEnv {
  uuidv4 : list Call -> string;
  rejects : list Call -> Call -> option nat;
  textContent : list Call -> handle -> jsstring -> option jsstring;
  screenshotBase64 : list Call -> handle -> jsstring
}.

(** Process state: the [sessions] map, the object heap, the calls made so
    far (newest first) and the arguments of the [endSession] invocations so
    far (newest first). *)
Record State := mkState {
  sessions : gmap string Session;
  heap : list Obj;
  calls : list Call;
  teardowns : list string
}.

Definition initial : State := mkState ∅ [] [] [].

(** ** Async functions as a state-and-exception monad *)

Inductive Completion (A : Type) :=
| Return (a : A)
| Throw (e : JsError).
Arguments Return {A} a.
Arguments Throw {A} e.

Definition Async (A : Type) : Type := State -> Completion A * State.

Definition ret {A} (a : A) : Async A := fun st => (Return a, st).

Definition throw {A} (e : JsError) : Async A := fun st => (Throw e, st).

Definition bind {A B} (m : Async A) (k : A -> Async B) : Async B :=
  fun st =>
    match m st with
    | (Return a, st') => k a st'
    | (Throw e, st') => (Throw e, st')
    end.

(** [try { m } catch (error) { h error }] *)
Definition try_catch {A} (m : Async A) (h : JsError -> Async A) : Async A :=
  fun st =>
    match m st with
    | (Return a, st') => (Return a, st')
    | (Throw e, st') => h e st'
    end.

Declare Scope async_scope.
Delimit Scope async_scope with async.
Notation "x <- m ;; k" := (bind m (fun x => k))
  (at level 100, m at next level, right associativity) : async_scope.
Notation "m ;; k" := (bind m (fun _ => k))
  (at level 100, right associativity) : async_scope.
Local Open Scope async_scope.

Definition log (c : Call) (st : State) : State :=
  mkState (sessions st) (heap st) (c :: calls st) (teardowns st).

(** A call into playwright: it is recorded, then it resolves or rejects
    as the environment decides. *)
Definition invoke (E : Env) (c : Call) : Async unit :=
  fun st =>
    match rejects E (calls st) c with
    | Some x => (Throw (Rejected x), log c st)
    | None => (Return tt, log c st)
    end.

(** A new object: the next free heap address. *)
Definition alloc (o : Obj) : Async handle :=
  fun st =>
    (Return (length (heap st)),
     mkState (sessions st) (heap st ++ [o]) (calls st) (teardowns st)).

Definition draw_uuid (E : Env) : Async string :=
  fun st => (Return (uuidv4 E (calls st)), log CUuidv4 st).

Definition sessions_get (k : string) : Async (option Session) :=
  fun st => (Return (sessions st !! k), st).

Definition sessions_set (k : string) (s : Session) : Async unit :=
  fun st =>
    (Return tt, mkState (<[k := s]> (sessions st)) (heap st) (calls st) (teardowns st)).

Definition sessions_delete (k : string) : Async unit :=
  fun st =>
    (Return tt, mkState (delete k (sessions st)) (heap st) (calls st) (teardowns st)).

Definition note_teardown (k : string) : Async unit :=
  fun st =>
    (Return tt, mkState (sessions st) (heap st) (calls st) (k :: teardowns st)).

(** ** sessionManager.ts *)

Definition createSession (E : Env) : Async string :=
  sessionId <- draw_uuid E ;;
  invoke E CLaunch ;;
  browser <- alloc BrowserObj ;;
  invoke E (CNewContext browser) ;;
  context <- alloc (ContextObj browser) ;;
  invoke E (CNewPage context) ;;
  page <- alloc (PageObj context) ;;
  sessions_set sessionId (mkSession browser context page) ;;
  ret sessionId.

Definition endSession (E : Env) (sessionId : string) : Async unit :=
  note_teardown sessionId ;;
  session <- sessions_get sessionId ;;
  match session with
  | Some s =>
      invoke E (CContextClose (context s)) ;;
      invoke E (CBrowserClose (browser s)) ;;
      sessions_delete sessionId
  | None => ret tt
  end.

Definition getDebugInfo (E : Env) (sessionId : string)
  : Async (option jsstring) :=
  session <- sessions_get sessionId ;;
  match session with
  | Some s =>
      fun st =>
        (invoke E (CScreenshot (page s)) ;;
         ret (Some (screenshotBase64 E (calls st) (page s)))) st
  | None => ret None
  end.

Definition getSession (sessionId : string) (st : State) : option Session :=
  sessions st !! sessionId.

(** ** playwrightRunner.ts *)

Definition missing_message (m : Method) : string :=
  match m with
  | GOTO => "Missing URL in instruction"
  | ACT => "Missing action instruction"
  | EXTRACT => "Missing extraction instruction"
  | OBSERVE => "Missing observation instruction"
  | WAIT => "Missing wait duration"
  | _ => EmptyString
  end.

(** [if (!instruction) throw new Error(msg)]; afterwards the instruction
    is a non-empty string. *)
Definition require_instruction (m : Method) (instruction : option jsstring)
  : Async jsstring :=
  match instruction with
  | Some (c :: s) => ret (c :: s)
  | _ => throw (Error (missing_message m))
  end.

(** The code unit of the space character. *)
Definition space : code_unit := 0x20%N.

(** The [ACT] case after its check. *)
Definition act (E : Env) (page : handle) (instruction : jsstring) : Async unit :=
  if JsString.startsWith instruction (js "click") then
    let selector :=
      JsString.trim (JsString.replace (js "click") (js "") instruction) in
    invoke E (CClick page selector)
  else if JsString.startsWith instruction (js "type") then
    let parts := JsString.split space instruction in
    let selector := nth_error parts 1 in
    let textParts := skipn 2 parts in
    let text := JsString.join (js " ") textParts in
    invoke E (CFill page selector text)
  else ret tt.

(** The [switch] inside the [try]. *)
Definition switch (E : Env) (sessionID : string) (page : handle)
    (method : Method) (instruction : option jsstring) : Async JsValue :=
  match method with
  | GOTO =>
      url <- require_instruction GOTO instruction ;;
      invoke E (CGoto page url) ;;
      ret VUndefined
  | ACT =>
      i <- require_instruction ACT instruction ;;
      act E page i ;;
      ret VUndefined
  | EXTRACT =>
      i <- require_instruction EXTRACT instruction ;;
      fun st =>
        (invoke E (CEval page i) ;;
         ret (match textContent E (calls st) page i with
              | Some t => VString t
              | None => VNull
              end)) st
  | OBSERVE =>
      i <- require_instruction OBSERVE instruction ;;
      invoke E (CWaitForSelector page i) ;;
      ret (VObserved i)
  | SCREENSHOT =>
      fun st =>
        (invoke E (CScreenshot page) ;;
         ret (VString (screenshotBase64 E (calls st) page))) st
  | WAIT =>
      i <- require_instruction WAIT instruction ;;
      invoke E (CWaitForTimeout page i) ;;
      ret VUndefined
  | NAVBACK =>
      invoke E (CGoBack page) ;;
      ret VUndefined
  | CLOSE =>
      endSession E sessionID ;;
      ret VUndefined
  end.

Definition runPlaywright (E : Env) (sessionID : string) (method : Method)
    (instruction : option jsstring) : Async JsValue :=
  fun st =>
    match getSession sessionID st with
    | None => (Throw TypeErrorUndefinedSession, st)
    | Some s =>
        try_catch (switch E sessionID (page s) method instruction)
          (fun error => endSession E sessionID ;; throw error) st
    end.

(** ** Observations on a run *)

(** The calls that act on a page. *)
Definition is_page_call (c : Call) : bool :=
  match c with
  | CGoto _ _ | CClick _ _ | CFill _ _ _ | CEval _ _
  | CWaitForSelector _ _ | CScreenshot _ | CWaitForTimeout _ _
  | CGoBack _ => true
  | _ => false
  end.

Definition page_calls (h : list Call) : list Call := List.filter is_page_call h.

(** Both release calls of [endSession] resolve when started in [st]. *)
Definition released (E : Env) (st : State) (s : Session) : bool :=
  match rejects E (calls st) (CContextClose (context s)) with
  | Some _ => false
  | None =>
      match rejects E (CContextClose (context s) :: calls st)
              (CBrowserClose (browser s)) with
      | Some _ => false
      | None => true
      end
  end.

(** The first rejection among the two release calls of [endSession]
    started in [st], if any: that of [context.close()], else that of
    [browser.close()]. *)
Definition release_failure (E : Env) (st : State) (s : Session) : option nat :=
  match rejects E (calls st) (CContextClose (context s)) with
  | Some x => Some x
  | None =>
      rejects E (CContextClose (context s) :: calls st)
        (CBrowserClose (browser s))
  end.

(** An [endSession] that resolves and changes neither the registry, nor
    the heap, nor the calls made: only the invocation itself is noted. *)
Definition endSession_noop (E : Env) (k : string) (st : State) : Prop :=
  endSession E k st =
  (Return tt, mkState (sessions st) (heap st) (calls st) (k :: teardowns st)).

(** The methods whose case starts with [if (!instruction) throw]. *)
Definition needs_instruction (m : Method) : bool :=
  match m with
  | GOTO | ACT | EXTRACT | OBSERVE | WAIT => true
  | CLOSE | SCREENSHOT | NAVBACK => false
  end.

(** No code unit of [s] is [c]. *)
Fixpoint lacks (c : code_unit) (s : jsstring) : bool :=
  match s with
  | [] => true
  | a :: s' => negb (N.eqb a c) && lacks c s'
  end.

(** The first rejection among the three acquisitions of [createSession]
    started in [st], if any. *)
Definition acquisition_failure (E : Env) (st : State) : option nat :=
  let b := length (heap st) in
  let h := CUuidv4 :: calls st in
  match rejects E h CLaunch with
  | Some x => Some x
  | None =>
      match rejects E (CLaunch :: h) (CNewContext b) with
      | Some x => Some x
      | None => rejects E (CNewContext b :: CLaunch :: h) (CNewPage (S b))
      end
  end.

(** The objects a [createSession] started with [b] objects on the heap
    allocates, in order. *)
Definition new_objs (b : nat) : list Obj :=
  [BrowserObj; ContextObj b; PageObj (S b)].

(** ** Sequences of operations and the registry invariant *)

Inductive Op :=
| OpCreate
| OpEnd (k : string)
| OpGet (k : string)
| OpDebug (k : string)
| OpRun (k : string) (m : Method) (instruction : option jsstring).

(** The state after one operation, whether it resolves or rejects
    ([getSession] only reads). *)
Definition step (E : Env) (op : Op) (st : State) : State :=
  match op with
  | OpCreate => snd (createSession E st)
  | OpEnd k => snd (endSession E k st)
  | OpGet k => st
  | OpDebug k => snd (getDebugInfo E k st)
  | OpRun k m i => snd (runPlaywright E k m i st)
  end.

Definition run_ops (E : Env) (ops : list Op) (st : State) : State :=
  fold_left (fun st op => step E op st) ops st.

(** One entry per id, and no browser in two entries. *)
Definition registry_inv (st : State) : Prop :=
  NoDup (map fst (map_to_list (sessions st))) /\
  (forall k1 k2 s1 s2,
      sessions st !! k1 = Some s1 ->
      sessions st !! k2 = Some s2 ->
      browser s1 = browser s2 -> k1 = k2).

(** Owners are allocated before what they own. *)
Definition heap_ok (h : list Obj) : Prop :=
  forall i o,
    h !! i = Some o ->
    match o with
    | BrowserObj => True
    | ContextObj b => b < i
    | PageObj c => c < i
    end.

(** The three handles of a session are a browser, a context of that
    browser and a page of that context. *)
Definition session_ok (h : list Obj) (s : Session) : Prop :=
  h !! browser s = Some BrowserObj /\
  h !! context s = Some (ContextObj (browser s)) /\
  h !! page s = Some (PageObj (context s)).

(** [k] is an id the generator returned earlier in the run. *)
Definition drawn_before (E : Env) (st : State) (k : string) : Prop :=
  exists pre h, calls st = pre ++ h /\ pre <> [] /\ k = uuidv4 E h.

Record wf (E : Env) (st : State) : Prop := mkWf {
  wf_heap : heap_ok (heap st);
  wf_sessions : forall k s, sessions st !! k = Some s -> session_ok (heap st) s;
  wf_browsers : forall k1 k2 s1 s2,
      sessions st !! k1 = Some s1 ->
      sessions st !! k2 = Some s2 ->
      browser s1 = browser s2 -> k1 = k2;
  wf_keys : forall k s, sessions st !! k = Some s -> drawn_before E st k
}.


(** [st'] has no entry that [st] lacks, the same heap, and more calls. *)
Definition evolves (st st' : State) : Prop :=
  sessions st' ⊆ sessions st /\
  heap st' = heap st /\
  exists h, calls st' = h ++ calls st.

Definition steady {A} (m : Async A) : Prop :=
  forall st, evolves st (snd (m st)).

(** ** Sample environments and states *)

(** A generator whose ids grow with the history: [u], [uu], ... *)
Fixpoint tally (h : list Call) : string :=
  match h with
  | [] => "u"
  | _ :: h' => String "u"%char (tally h')
  end.

(** Nothing rejects. *)
Definition calm : Env :=
  mkEnv tally (fun _ _ => None)
    (fun _ _ _ => Some (js "Example Domain")) (fun _ _ => js "iVBORw0KGgo=").

(** Navigation rejects with code 1, closing a context with code 2. *)
Definition faulty : Env :=
  mkEnv tally
    (fun _ c =>
       match c with
       | CGoto _ _ => Some 1
       | CContextClose _ => Some 2
       | _ => None
       end)
    (fun _ _ _ => None) (fun _ _ => []).

(** The browser cannot be launched. *)
Definition no_browser : Env :=
  mkEnv tally
    (fun _ c => match c with CLaunch => Some 7 | _ => None end)
    (fun _ _ _ => None) (fun _ _ => []).

(** Navigation rejects with code 5; nothing else does. *)
Definition offline : Env :=
  mkEnv tally
    (fun _ c => match c with CGoto _ _ => Some 5 | _ => None end)
    (fun _ _ _ => None) (fun _ _ => []).

(** One live session, registered under ["u"]. *)
Definition live : State := snd (createSession calm initial).

Definition live_session : Session := mkSession 0 1 2.

(** ** Further observations *)

(** [st'] has the heap of [st] and its registry, but for the entry of
    [k], which may be gone. *)
Definition only_drops (k : string) (st st' : State) : Prop :=
  heap st' = heap st /\
  (sessions st' = sessions st \/ sessions st' = delete k (sessions st)).

(** A call on the page [p]. *)
Definition on_page (p : handle) (c : Call) : bool :=
  match c with
  | CGoto q _ | CClick q _ | CFill q _ _ | CEval q _
  | CWaitForSelector q _ | CScreenshot q | CWaitForTimeout q _
  | CGoBack q => Nat.eqb q p
  | _ => false
  end.

(** A call on the page of [s], or the release of its context or of its
    browser. *)
Definition owned_by (s : Session) (c : Call) : bool :=
  on_page (page s) c ||
  match c with
  | CContextClose q => Nat.eqb q (context s)
  | CBrowserClose q => Nat.eqb q (browser s)
  | _ => false
  end.

(** The id draw and the three acquisitions of [createSession]. *)
Definition is_acquisition (c : Call) : bool :=
  match c with
  | CUuidv4 | CLaunch | CNewContext _ | CNewPage _ => true
  | _ => false
  end.

(** The page calls of a method other than [ACT] whose check has passed. *)
Definition primitive_of (m : Method) (p : handle) (i : jsstring) : list Call :=
  match m with
  | GOTO => [CGoto p i]
  | EXTRACT => [CEval p i]
  | OBSERVE => [CWaitForSelector p i]
  | WAIT => [CWaitForTimeout p i]
  | SCREENSHOT => [CScreenshot p]
  | NAVBACK => [CGoBack p]
  | CLOSE | ACT => []
  end.

(** What each method resolves to. *)
Definition result_shape (m : Method) (i : option jsstring) (v : JsValue)
  : Prop :=
  match m with
  | GOTO | ACT | WAIT | NAVBACK | CLOSE => v = VUndefined
  | EXTRACT => v = VNull \/ exists t, v = VString t
  | OBSERVE => exists sel, i = Some sel /\ v = VObserved sel
  | SCREENSHOT => exists b, v = VString b
  end.

(** The calls of a run started in [st] on the session [s] registered
    under [sid] (or on no session) are calls on the objects of [s]. *)
Definition owned_run (sid : string) (s : Session) (st st' : State) : Prop :=
  (sessions st !! sid = Some s \/ sessions st !! sid = None) ->
  (sessions st' !! sid = Some s \/ sessions st' !! sid = None) /\
  exists h, calls st' = h ++ calls st /\ forallb (owned_by s) h = true.

(** The number of [endSession] invocations of a dispatcher call on a
    registered session: one if the method is [CLOSE], one more if the
    call rejects. *)
Definition teardown_count (m : Method) (r : Completion JsValue) : nat :=
  (match m with CLOSE => 1 | _ => 0 end) +
  (match r with Throw _ => 1 | Return _ => 0 end).

(** No operation of the sequence is [createSession]. *)
Definition no_create (ops : list Op) : bool :=
  forallb (fun op => match op with OpCreate => false | _ => true end) ops.

(** The generator returns the same id every time. *)
Definition stutter : Env :=
  mkEnv (fun _ => "dup") (fun _ _ => None)
    (fun _ _ _ => None) (fun _ _ => []).

(** The browser launches, its context cannot be created. *)
Definition half_open : Env :=
  mkEnv tally
    (fun _ c => match c with CNewContext _ => Some 3 | _ => None end)
    (fun _ _ _ => None) (fun _ _ => []).

(** Screenshots reject with code 4. *)
Definition blind : Env :=
  mkEnv tally
    (fun _ c => match c with CScreenshot _ => Some 4 | _ => None end)
    (fun _ _ _ => None) (fun _ _ => []).

(** ** Proof support *)

Ltac run_async :=
  unfold createSession, endSession, getDebugInfo, runPlaywright, switch,
    try_catch, bind, ret, throw, invoke, alloc, draw_uuid, sessions_get,
    sessions_set, sessions_delete, note_teardown, require_instruction,
    getSession, log in *;
  cbn [sessions heap calls teardowns fst snd browser context page] in *.

Lemma length_snoc {A} (l : list A) (a : A) : length (l ++ [a]) = S (length l).
Proof. rewrite length_app. cbn. lia. Qed.

Ltac case_rejects :=
  cbn; rewrite ?length_snoc;
  match goal with
  | |- context [rejects ?E ?h ?c] =>
      let x := fresh "x" in
      let Hx := fresh "Hrej" in
      destruct (rejects E h c) as [x|] eqn:Hx
  end.

(** ** The model on concrete inputs *)

Example split_keeps_empty_tokens :
  JsString.split space (js "type #a  b") = [js "type"; js "#a"; []; js "b"].
Proof. reflexivity. Qed.

Example replace_first_occurrence_only :
  JsString.replace (js "click") (js "") (js "click .click-me") =
  js " .click-me".
Proof. reflexivity. Qed.

Example trim_both_ends : JsString.trim (js "  #submit ") = js "#submit".
Proof. reflexivity. Qed.

(** [trim] strips the ideographic space and the BOM, and keeps the
    letters U+00E0 and U+0141. *)
Example trim_beyond_latin1 :
  JsString.trim [0x3000; 0xE0; 0x141; 0xFEFF; 0x2028]%N = [0xE0; 0x141]%N.
Proof. reflexivity. Qed.

Example create_registers_first_session :
  createSession calm initial = (Return "u", live) /\
  getSession "u" live = Some live_session /\
  heap live = [BrowserObj; ContextObj 0; PageObj 1].
Proof. repeat split. Qed.

(** create, [GOTO], [EXTRACT], [CLOSE], then [getDebugInfo] is empty. *)
Example navigate_extract_close :
  let st1 := snd (runPlaywright calm "u" GOTO (Some (js "https://example.com")) live) in
  let r2 := runPlaywright calm "u" EXTRACT (Some (js "h1")) st1 in
  let r3 := runPlaywright calm "u" CLOSE None (snd r2) in
  fst r2 = Return (VString (js "Example Domain")) /\
  fst r3 = Return VUndefined /\
  getSession "u" (snd r3) = None /\
  fst (getDebugInfo calm "u" (snd r3)) = Return None.
Proof. repeat split. Qed.

(** ** The registry: [endSession] *)

Lemma endSession_absent E k st :
  sessions st !! k = None -> endSession_noop E k st.
Proof.
  intros Hk. unfold endSession_noop. run_async. now rewrite Hk.
Qed.

Lemma endSession_released E k s st :
  sessions st !! k = Some s ->
  released E st s = true ->
  endSession E k st =
  (Return tt,
   mkState (delete k (sessions st)) (heap st)
     (CBrowserClose (browser s) :: CContextClose (context s) :: calls st)
     (k :: teardowns st)).
Proof.
  intros Hk Hr. unfold released in Hr. run_async. rewrite Hk.
  case_rejects; [discriminate|].
  case_rejects; [discriminate|].
  reflexivity.
Qed.

Lemma endSession_not_released E k s st :
  sessions st !! k = Some s ->
  released E st s = false ->
  exists x h,
    endSession E k st =
    (Throw (Rejected x),
     mkState (sessions st) (heap st) (h ++ calls st) (k :: teardowns st)).
Proof.
  intros Hk Hr. unfold released in Hr. run_async. rewrite Hk.
  case_rejects.
  - exists x, [CContextClose (context s)]. reflexivity.
  - case_rejects; [|discriminate].
    exists x, [CBrowserClose (browser s); CContextClose (context s)].
    reflexivity.
Qed.

Lemma endSession_teardowns E k st :
  teardowns (snd (endSession E k st)) = k :: teardowns st.
Proof.
  run_async. destruct (sessions st !! k) as [s|]; [|reflexivity].
  case_rejects; [reflexivity|]. case_rejects; reflexivity.
Qed.

Lemma endSession_page_calls E k st :
  page_calls (calls (snd (endSession E k st))) = page_calls (calls st).
Proof.
  run_async. destruct (sessions st !! k) as [s|]; [|reflexivity].
  case_rejects; [reflexivity|]. case_rejects; reflexivity.
Qed.

(** ** Claims about [endSession] *)

(** C3, as stated, fails: a rejecting [context.close()] leaves the entry
    in the registry, and [endSession] itself rejects. *)
Lemma endSession_failed_release_keeps_entry :
  sessions live !! "u" = Some live_session /\
  fst (endSession faulty "u" live) = Throw (Rejected 2) /\
  sessions (snd (endSession faulty "u" live)) !! "u" = Some live_session.
Proof. vm_compute. auto. Qed.

(** What [endSession] on a registered session returns: the error of the
    first release call that rejects, or nothing. *)
Lemma endSession_result E k s st :
  sessions st !! k = Some s ->
  fst (endSession E k st) =
  match release_failure E st s with
  | Some x => Throw (Rejected x)
  | None => Return tt
  end.
Proof.
  intros Hk. unfold release_failure. run_async. rewrite Hk.
  case_rejects; [reflexivity|]. case_rejects; reflexivity.
Qed.

Lemma released_release_failure E st s :
  released E st s =
  match release_failure E st s with
  | Some _ => false
  | None => true
  end.
Proof.
  unfold released, release_failure.
  destruct (rejects E (calls st) (CContextClose (context s))); [reflexivity|].
  destruct (rejects E (CContextClose (context s) :: calls st)
              (CBrowserClose (browser s))); reflexivity.
Qed.

(** C3 (amended): for a session in the registry, [endSession] removes
    the entry exactly when both release calls resolve.  When one of them
    rejects, [endSession] rejects with the error of that call (of
    [context.close()] if it rejects, else of [browser.close()]) and the
    registry is unchanged. *)
Theorem endSession_removes_when_released E k s st :
  sessions st !! k = Some s ->
  sessions (snd (endSession E k st)) =
    (if released E st s then delete k (sessions st) else sessions st) /\
  fst (endSession E k st) =
    match release_failure E st s with
    | Some x => Throw (Rejected x)
    | None => Return tt
    end /\
  released E st s =
    match release_failure E st s with
    | Some _ => false
    | None => true
    end /\
  getSession k (snd (endSession E k st)) =
    (if released E st s then None else Some s).
Proof.
  intros Hk.
  split; [|split; [exact (endSession_result E k s st Hk) |
                   split; [exact (released_release_failure E st s)|]]].
  - destruct (released E st s) eqn:Hr.
    + now rewrite (endSession_released E k s st Hk Hr).
    + now destruct (endSession_not_released E k s st Hk Hr) as (x & h & ->).
  - destruct (released E st s) eqn:Hr.
    + rewrite (endSession_released E k s st Hk Hr).
      unfold getSession. cbn. apply lookup_delete_eq.
    + now destruct (endSession_not_released E k s st Hk Hr) as (x & h & ->).
Qed.

Lemma endSession_removes_when_released_witness :
  sessions live !! "u" = Some live_session /\
  released calm live live_session = true /\
  sessions (snd (endSession calm "u" live)) = delete "u" (sessions live) /\
  getSession "u" (snd (endSession calm "u" live)) = None /\
  release_failure faulty live live_session = Some 2 /\
  fst (endSession faulty "u" live) = Throw (Rejected 2) /\
  getSession "u" (snd (endSession faulty "u" live)) = Some live_session.
Proof.
  split; [reflexivity|]. split; [reflexivity|].
  pose proof (endSession_removes_when_released calm "u" live_session live
                eq_refl) as (H1 & _ & _ & H2).
  pose proof (endSession_removes_when_released faulty "u" live_session live
                eq_refl) as (_ & H3 & _ & H4).
  split; [exact H1|]. split; [exact H2|]. split; [reflexivity|].
  split; [exact H3 | exact H4].
Defined.

(** C5: [endSession] on an id that is not in the registry resolves and
    changes nothing; once [endSession k] has resolved, [getSession k] is
    empty and a second [endSession k] changes nothing. *)
Theorem endSession_idempotent E k st :
  (sessions st !! k = None -> endSession_noop E k st) /\
  (forall st1,
      endSession E k st = (Return tt, st1) ->
      getSession k st1 = None /\ endSession_noop E k st1).
Proof.
  split; [apply endSession_absent|].
  intros st1 Hend.
  assert (Hgone : sessions st1 !! k = None).
  { destruct (sessions st !! k) as [s|] eqn:Hk.
    - destruct (released E st s) eqn:Hr.
      + rewrite (endSession_released E k s st Hk Hr) in Hend.
        injection Hend as <-. cbn. apply lookup_delete_eq.
      + destruct (endSession_not_released E k s st Hk Hr) as (x & h & Hx).
        rewrite Hx in Hend. discriminate.
    - rewrite (endSession_absent E k st Hk) in Hend.
      injection Hend as <-. exact Hk. }
  split; [exact Hgone|]. now apply endSession_absent.
Qed.

Lemma endSession_idempotent_witness :
  endSession calm "u" live =
    (Return tt, snd (endSession calm "u" live)) /\
  getSession "u" (snd (endSession calm "u" live)) = None /\
  endSession_noop calm "u" (snd (endSession calm "u" live)).
Proof.
  split; [reflexivity|].
  destruct (endSession_idempotent calm "u" live) as [_ H].
  exact (H (snd (endSession calm "u" live)) eq_refl).
Defined.

(** ** Claims about [createSession] *)

Lemma createSession_ok E st :
  acquisition_failure E st = None ->
  let b := length (heap st) in
  createSession E st =
  (Return (uuidv4 E (calls st)),
   mkState (<[uuidv4 E (calls st) := mkSession b (S b) (S (S b))]> (sessions st))
     (heap st ++ new_objs b)
     (CNewPage (S b) :: CNewContext b :: CLaunch :: CUuidv4 :: calls st)
     (teardowns st)).
Proof.
  unfold acquisition_failure. intros Hacq. run_async.
  case_rejects; [discriminate|].
  case_rejects; [discriminate|].
  case_rejects; [discriminate|].
  cbn. rewrite ?length_snoc, <- ?app_assoc. reflexivity.
Qed.

Lemma createSession_fails E st x :
  acquisition_failure E st = Some x ->
  exists h n,
    createSession E st =
    (Throw (Rejected x),
     mkState (sessions st)
       (heap st ++ firstn n (new_objs (length (heap st))))
       (h ++ calls st) (teardowns st)).
Proof.
  unfold acquisition_failure. intros Hacq. run_async.
  case_rejects.
  { exists [CLaunch; CUuidv4], 0. cbn [firstn]. rewrite app_nil_r.
    injection Hacq as <-. reflexivity. }
  case_rejects.
  { injection Hacq as <-.
    exists [CNewContext (length (heap st)); CLaunch; CUuidv4], 1.
    reflexivity. }
  case_rejects; [|discriminate].
  injection Hacq as <-. rewrite ?length_snoc.
  exists [CNewPage (S (length (heap st))); CNewContext (length (heap st));
          CLaunch; CUuidv4], 2.
  rewrite <- app_assoc. reflexivity.
Qed.

(** C7: when the launch of the browser, the creation of the context or
    the creation of the page rejects, [createSession] rejects with that
    error and the registry is the one it started with. *)
Theorem createSession_all_or_nothing E st x :
  acquisition_failure E st = Some x ->
  fst (createSession E st) = Throw (Rejected x) /\
  sessions (snd (createSession E st)) = sessions st.
Proof.
  intros Hacq.
  destruct (createSession_fails E st x Hacq) as (h & n & ->).
  split; reflexivity.
Qed.

Lemma createSession_all_or_nothing_witness :
  acquisition_failure no_browser live = Some 7 /\
  fst (createSession no_browser live) = Throw (Rejected 7) /\
  sessions (snd (createSession no_browser live)) = sessions live.
Proof.
  split; [reflexivity|].
  apply (createSession_all_or_nothing no_browser live 7). reflexivity.
Defined.

(** ** The dispatcher: absent sessions and the catch-all handler *)

(** C4: for an id that is not in the registry the dispatcher throws (the
    destructuring of [undefined] is a [TypeError]) whatever the method
    and the instruction, before the [try] is entered: nothing is called
    and the state is untouched.  [getSession] on the same id is empty. *)
Theorem runPlaywright_absent_session_throws E sid m instr st :
  sessions st !! sid = None ->
  runPlaywright E sid m instr st = (Throw TypeErrorUndefinedSession, st) /\
  getSession sid st = None.
Proof.
  intros Hk. unfold runPlaywright, getSession. rewrite Hk. split; reflexivity.
Qed.

Lemma runPlaywright_absent_session_throws_witness :
  sessions live !! "uu" = None /\
  runPlaywright calm "uu" SCREENSHOT None live =
    (Throw TypeErrorUndefinedSession, live) /\
  getSession "uu" live = None.
Proof.
  split; [reflexivity|].
  apply (runPlaywright_absent_session_throws calm "uu" SCREENSHOT None live).
  reflexivity.
Defined.

Lemma endSession_throw_keeps E k e st st1 :
  endSession E k st = (Throw e, st1) ->
  sessions st1 = sessions st /\ teardowns st1 = k :: teardowns st.
Proof.
  intros Hend. destruct (sessions st !! k) as [s|] eqn:Hk.
  - destruct (released E st s) eqn:Hr.
    + rewrite (endSession_released E k s st Hk Hr) in Hend. discriminate.
    + destruct (endSession_not_released E k s st Hk Hr) as (x & h & Hx).
      rewrite Hx in Hend. injection Hend as _ <-. split; reflexivity.
  - rewrite (endSession_absent E k st Hk) in Hend. discriminate.
Qed.

Ltac invert_pair :=
  match goal with
  | H : (_, _) = (_, _) |- _ => injection H as ? ?; subst
  end.

(** A [switch] that throws has not touched the registry, and has invoked
    [endSession] only if the method is [CLOSE]. *)
Lemma switch_throw_keeps E sid p m instr e st st1 :
  switch E sid p m instr st = (Throw e, st1) ->
  sessions st1 = sessions st /\
  teardowns st1 = match m with CLOSE => sid :: teardowns st | _ => teardowns st end.
Proof.
  intros Hsw. destruct m; cbn [switch] in Hsw.
  1-4, 7: destruct instr as [[|c i]|]; unfold bind, require_instruction, throw,
    ret in Hsw; try (invert_pair; split; reflexivity).
  all: try (unfold act in Hsw;
            repeat match type of Hsw with
              | context [if ?b then _ else _] => destruct b
              end).
  all: unfold bind, invoke, ret, log in Hsw.
  all: try (match type of Hsw with
            | context [rejects ?E ?h ?c] => destruct (rejects E h c)
            end; invert_pair; try discriminate; split; reflexivity).
  all: try (invert_pair; discriminate).
  destruct (endSession E sid st) as [[[]|e'] st'] eqn:Hend; [discriminate|].
  invert_pair. now apply endSession_throw_keeps with (E := E) (e := e).
Qed.

(** [throw] inside the [try]: the handler runs [endSession] and rethrows. *)
Lemma runPlaywright_caught E sid s m instr e st st1 :
  getSession sid st = Some s ->
  switch E sid (page s) m instr st = (Throw e, st1) ->
  runPlaywright E sid m instr st =
  (endSession E sid ;; throw e) st1.
Proof.
  intros Hget Hsw. unfold runPlaywright, try_catch. rewrite Hget, Hsw.
  reflexivity.
Qed.





(** ** The dispatcher: the missing-instruction check *)

(** The check throws before anything is called, for an omitted and for
    an empty instruction alike. *)
Lemma switch_falsy_instruction E sid p m instr st :
  needs_instruction m = true ->
  JsString.falsy instr = true ->
  switch E sid p m instr st = (Throw (Error (missing_message m)), st).
Proof.
  intros Hm Hi.
  destruct instr as [[|c i]|]; try discriminate;
    destruct m; try discriminate; reflexivity.
Qed.

Lemma runPlaywright_falsy_instruction E sid s m instr st :
  getSession sid st = Some s ->
  needs_instruction m = true ->
  JsString.falsy instr = true ->
  runPlaywright E sid m instr st =
  (endSession E sid ;; throw (Error (missing_message m))) st.
Proof.
  intros Hget Hm Hi.
  apply runPlaywright_caught with (s := s); [exact Hget|].
  now apply switch_falsy_instruction.
Qed.




(** C10: the empty string fails the check like an omitted instruction.
    For a live session and each of [GOTO], [ACT], [EXTRACT], [OBSERVE] and
    [WAIT], the run with [""] is the run with no instruction, the [switch]
    throws the missing-instruction [Error] in the state it started in, no
    call on the page is made in the whole run, and the dispatcher call
    itself fails: with the missing-instruction [Error], or with the error
    of the handler's release call if one rejects. *)
Theorem runPlaywright_empty_instruction E sid s m st :
  getSession sid st = Some s ->
  needs_instruction m = true ->
  runPlaywright E sid m (Some (js "")) st = runPlaywright E sid m None st /\
  switch E sid (page s) m (Some (js "")) st =
    (Throw (Error (missing_message m)), st) /\
  page_calls (calls (snd (runPlaywright E sid m (Some (js "")) st))) =
    page_calls (calls st) /\
  fst (runPlaywright E sid m (Some (js "")) st) =
    match release_failure E st s with
    | Some x => Throw (Rejected x)
    | None => Throw (Error (missing_message m))
    end /\
  exists e, fst (runPlaywright E sid m (Some (js "")) st) = Throw e.
Proof.
  intros Hget Hm.
  assert (Hsw := switch_falsy_instruction E sid (page s) m (Some (js "")) st Hm eq_refl).
  rewrite (runPlaywright_falsy_instruction E sid s m (Some (js "")) st Hget Hm eq_refl).
  rewrite (runPlaywright_falsy_instruction E sid s m None st Hget Hm eq_refl).
  split; [reflexivity|]. split; [exact Hsw|].
  unfold bind.
  pose proof (endSession_page_calls E sid st) as Hp.
  pose proof (endSession_result E sid s st Hget) as Hr.
  destruct (endSession E sid st) as [[[]|e] st']; unfold throw;
    cbn [fst snd] in *; (split; [exact Hp|]);
    destruct (release_failure E st s) as [x|]; try discriminate;
    (split; [first [reflexivity | congruence] | eauto]).
Qed.

Lemma runPlaywright_empty_instruction_witness :
  getSession "u" live = Some live_session /\
  needs_instruction EXTRACT = true /\
  runPlaywright calm "u" EXTRACT (Some (js "")) live =
    runPlaywright calm "u" EXTRACT None live /\
  switch calm "u" 2 EXTRACT (Some (js "")) live =
    (Throw (Error "Missing extraction instruction"), live) /\
  fst (runPlaywright calm "u" EXTRACT (Some (js "")) live) =
    Throw (Error "Missing extraction instruction").
Proof.
  split; [reflexivity|]. split; [reflexivity|].
  pose proof (runPlaywright_empty_instruction calm "u" live_session EXTRACT live
                eq_refl eq_refl) as (H1 & H2 & _ & H3 & _).
  split; [exact H1 | split; [exact H2 | exact H3]].
Defined.

(** ** The dispatcher: [ACT] *)

Module JsStringFacts.
Import JsString.

Lemma replace_at_start pat rep s :
  startsWith s pat = true ->
  replace pat rep s = rep ++ skip (length pat) s.
Proof.
  intros Hp. destruct s; cbn [replace]; now rewrite Hp.
Qed.

Lemma split_nonempty sep s : split sep s <> [].
Proof.
  destruct s as [|c s]; cbn [split]; [discriminate|].
  destruct (N.eqb c sep); [discriminate|].
  destruct (split sep s); discriminate.
Qed.

(** The first token ends at the first separator. *)
Lemma split_first_token sep tok rest :
  lacks sep tok = true ->
  split sep (tok ++ sep :: rest) = tok :: split sep rest.
Proof.
  induction tok as [|c tok IH]; intros Hl; cbn [app split lacks] in *.
  - now rewrite N.eqb_refl.
  - apply andb_prop in Hl as [Hc Hl].
    apply negb_true_iff in Hc. rewrite Hc, (IH Hl). reflexivity.
Qed.

Lemma join_cons_char sep c t ts :
  join sep ((c :: t) :: ts) = c :: join sep (t :: ts).
Proof. destruct ts; reflexivity. Qed.

(** Joining the pieces of a split with the separator gives the string
    back. *)
Lemma join_split sep s : join [sep] (split sep s) = s.
Proof.
  induction s as [|c s IH]; [reflexivity|].
  cbn [split]. destruct (N.eqb c sep) eqn:Hc.
  - apply N.eqb_eq in Hc. subst c.
    pose proof (split_nonempty sep s) as Hne.
    destruct (split sep s) as [|t ts] eqn:Hs; [contradiction|].
    change (sep :: join [sep] (t :: ts) = sep :: s). now rewrite IH.
  - pose proof (split_nonempty sep s) as Hne.
    destruct (split sep s) as [|t ts] eqn:Hs; [contradiction|].
    rewrite join_cons_char. now rewrite IH.
Qed.

End JsStringFacts.

(** The calls on the page after a guarded call [c] are those before it
    and [c], whether [c] resolves or the handler runs. *)
Lemma caught_invoke_page_calls E sid c (v : JsValue) st :
  is_page_call c = true ->
  page_calls (calls (snd (try_catch (invoke E c ;; ret v)
                            (fun error => endSession E sid ;; throw error) st))) =
  c :: page_calls (calls st).
Proof.
  intros Hc. unfold try_catch, bind at 1, invoke, ret.
  destruct (rejects E (calls st) c) as [x|].
  - unfold bind, throw.
    pose proof (endSession_page_calls E sid (log c st)) as Hp.
    destruct (endSession E sid (log c st)) as [[[]|e] st'];
      cbn [snd] in *; rewrite Hp; cbn; now rewrite Hc.
  - cbn. now rewrite Hc.
Qed.

Lemma runPlaywright_act E sid s c i st :
  getSession sid st = Some s ->
  runPlaywright E sid ACT (Some (c :: i)) st =
  try_catch (act E (page s) (c :: i) ;; ret VUndefined)
    (fun error => endSession E sid ;; throw error) st.
Proof.
  intros Hget. unfold runPlaywright. rewrite Hget. reflexivity.
Qed.

(** C6, as stated, fails: an instruction that starts with neither verb
    resolves without any call on the page. *)
Lemma act_unknown_verb_does_nothing :
  getSession "u" live = Some live_session /\
  runPlaywright calm "u" ACT (Some (js "hover #menu")) live =
    (Return VUndefined, live) /\
  page_calls (calls (snd (runPlaywright calm "u" ACT (Some (js "hover #menu")) live))) =
    page_calls (calls live).
Proof. vm_compute. auto. Qed.

(** C6 (amended): for a live session and a non-empty [ACT] instruction
    the dispatcher makes at most one call on the page.  It is one
    [click] when the instruction starts with [click] (on what follows the
    verb, trimmed), one [fill] when it starts with [type] (the second
    token of the split at single spaces is the selector, the tokens after
    it joined by single spaces are the text), and none otherwise: the call
    then resolves and leaves the state as it was.  For [click <selector>]
    the click is on the trimmed selector; for [type <selector> <text...>]
    with a selector free of spaces the fill is on the selector with
    exactly the text. *)
Theorem runPlaywright_act_interaction E sid s instr st :
  getSession sid st = Some s ->
  instr <> [] ->
  let out := runPlaywright E sid ACT (Some instr) st in
  let tokens := JsString.split space instr in
  page_calls (calls (snd out)) =
    (if JsString.startsWith instr (js "click")
     then [CClick (page s) (JsString.trim (JsString.skip 5 instr))]
     else if JsString.startsWith instr (js "type")
     then [CFill (page s) (nth_error tokens 1)
             (JsString.join (js " ") (skipn 2 tokens))]
     else []) ++ page_calls (calls st) /\
  (JsString.startsWith instr (js "click") = false ->
   JsString.startsWith instr (js "type") = false ->
   out = (Return VUndefined, st)) /\
  (forall sel,
      instr = js "click " ++ sel ->
      page_calls (calls (snd out)) =
        CClick (page s) (JsString.trim sel) :: page_calls (calls st)) /\
  (forall sel text,
      instr = js "type " ++ sel ++ space :: text ->
      lacks space sel = true ->
      page_calls (calls (snd out)) =
        CFill (page s) (Some sel) text :: page_calls (calls st)).
Proof.
  intros Hget Hne out tokens. subst out tokens.
  destruct instr as [|c i]; [contradiction|].
  rewrite (runPlaywright_act E sid s c i st Hget).
  assert (Hgen :
    page_calls (calls (snd (try_catch (act E (page s) (c :: i) ;; ret VUndefined)
                              (fun error => endSession E sid ;; throw error) st))) =
    (if JsString.startsWith (c :: i) (js "click")
     then [CClick (page s) (JsString.trim (JsString.skip 5 (c :: i)))]
     else if JsString.startsWith (c :: i) (js "type")
     then [CFill (page s) (nth_error (JsString.split space (c :: i)) 1)
             (JsString.join (js " ") (skipn 2 (JsString.split space (c :: i))))]
     else []) ++ page_calls (calls st)).
  { unfold act.
    destruct (JsString.startsWith (c :: i) (js "click")) eqn:Hclick.
    - rewrite (JsStringFacts.replace_at_start (js "click") (js "") _ Hclick).
      change (js "" ++ JsString.skip (length (js "click")) (c :: i))
        with (JsString.skip 5 (c :: i)).
      now rewrite caught_invoke_page_calls.
    - destruct (JsString.startsWith (c :: i) (js "type")) eqn:Htype.
      + now rewrite caught_invoke_page_calls.
      + reflexivity. }
  split; [exact Hgen|]. split; [|split].
  - intros Hclick Htype. unfold act. rewrite Hclick, Htype. reflexivity.
  - intros sel Hi. rewrite Hgen, Hi. reflexivity.
  - intros sel text Hi Hsel. rewrite Hgen, Hi.
    set (rest := sel ++ space :: text).
    assert (Hclick : JsString.startsWith (js "type " ++ rest) (js "click") = false)
      by reflexivity.
    assert (Htype : JsString.startsWith (js "type " ++ rest) (js "type") = true)
      by reflexivity.
    rewrite Hclick, Htype.
    change (js "type " ++ rest) with (js "type" ++ space :: rest).
    rewrite (JsStringFacts.split_first_token space (js "type") _ eq_refl).
    subst rest.
    rewrite (JsStringFacts.split_first_token space sel text Hsel).
    cbn [nth_error skipn].
    change (skipn 0 (JsString.split space text)) with (JsString.split space text).
    change (js " ") with [space].
    now rewrite JsStringFacts.join_split.
Qed.

Lemma runPlaywright_act_interaction_witness :
  getSession "u" live = Some live_session /\
  page_calls (calls (snd (runPlaywright calm "u" ACT
                            (Some (js "type #search open operator")) live))) =
    [CFill 2 (Some (js "#search")) (js "open operator")] /\
  page_calls (calls (snd (runPlaywright calm "u" ACT
                            (Some (js "click  #submit ")) live))) =
    [CClick 2 (js "#submit")] /\
  page_calls (calls (snd (runPlaywright calm "u" ACT
                            (Some (js "click" ++ [0x3000%N] ++ js "#ok" ++
                                   [0xFEFF%N])) live))) =
    [CClick 2 (js "#ok")].
Proof.
  split; [reflexivity|].
  pose proof (runPlaywright_act_interaction calm "u" live_session
                (js "type #search open operator") live eq_refl
                ltac:(discriminate)) as (_ & _ & _ & Htype).
  pose proof (runPlaywright_act_interaction calm "u" live_session
                (js "click  #submit ") live eq_refl
                ltac:(discriminate)) as (_ & _ & Hclick & _).
  pose proof (runPlaywright_act_interaction calm "u" live_session
                (js "click" ++ [0x3000%N] ++ js "#ok" ++ [0xFEFF%N]) live
                eq_refl ltac:(discriminate)) as (Hwide & _).
  split; [|split].
  - exact (Htype (js "#search") (js "open operator") eq_refl eq_refl).
  - exact (Hclick (js " #submit ") eq_refl).
  - exact Hwide.
Defined.

(** ** Frame: what the operations leave alone *)

Lemma evolves_refl st : evolves st st.
Proof. repeat split; [reflexivity | now exists []]. Qed.

Lemma evolves_trans st1 st2 st3 :
  evolves st1 st2 -> evolves st2 st3 -> evolves st1 st3.
Proof.
  intros (Hs & Hh & h & Hc) (Hs' & Hh' & h' & Hc').
  repeat split.
  - now transitivity (sessions st2).
  - congruence.
  - exists (h' ++ h). rewrite Hc', Hc. apply app_assoc.
Qed.

Lemma steady_ret {A} (a : A) : steady (ret a).
Proof. intros st. apply evolves_refl. Qed.

Lemma steady_throw {A} e : steady (@throw A e).
Proof. intros st. apply evolves_refl. Qed.

Lemma steady_bind {A B} (m : Async A) (k : A -> Async B) :
  steady m -> (forall a, steady (k a)) -> steady (bind m k).
Proof.
  intros Hm Hk st. unfold bind. specialize (Hm st).
  destruct (m st) as [[a|e] st1]; cbn [snd] in *; [|exact Hm].
  eapply evolves_trans; [exact Hm | apply Hk].
Qed.

Lemma steady_try_catch {A} (m : Async A) (h : JsError -> Async A) :
  steady m -> (forall e, steady (h e)) -> steady (try_catch m h).
Proof.
  intros Hm Hh st. unfold try_catch. specialize (Hm st).
  destruct (m st) as [[a|e] st1]; cbn [snd] in *; [exact Hm|].
  eapply evolves_trans; [exact Hm | apply Hh].
Qed.

Lemma steady_invoke E c : steady (invoke E c).
Proof.
  intros st. unfold invoke.
  destruct (rejects E (calls st) c); (repeat split; [reflexivity | now exists [c]]).
Qed.

Lemma steady_endSession E k : steady (endSession E k).
Proof.
  unfold endSession. apply steady_bind.
  { intros st. repeat split; [reflexivity | now exists []]. }
  intros _. apply steady_bind.
  { intros st. apply evolves_refl. }
  intros [s|]; [|apply steady_ret].
  repeat (apply steady_bind; [apply steady_invoke | intros _]).
  intros st. repeat split; [apply delete_subseteq | now exists []].
Qed.

Lemma steady_require_instruction m i : steady (require_instruction m i).
Proof. destruct i as [[|c s]|]; intros st; apply evolves_refl. Qed.

Lemma steady_act E p i : steady (act E p i).
Proof.
  unfold act.
  repeat match goal with |- context [if ?b then _ else _] => destruct b end;
    first [apply steady_invoke | apply steady_ret].
Qed.

Ltac steady_steps :=
  cbv beta;
  lazymatch goal with
  | |- steady (bind _ _) =>
      apply steady_bind; [steady_steps | intros ?; steady_steps]
  | |- steady (ret _) => apply steady_ret
  | |- steady (throw _) => apply steady_throw
  | |- steady (invoke _ _) => apply steady_invoke
  | |- steady (act _ _ _) => apply steady_act
  | |- steady (endSession _ _) => apply steady_endSession
  | |- steady (require_instruction _ _) => apply steady_require_instruction
  | |- steady (fun st => _) =>
      let st0 := fresh "st" in
      intros st0; cbv beta;
      lazymatch goal with
      | |- evolves _ (snd (?m st0)) =>
          let Hm := fresh "Hm" in
          assert (Hm : steady m) by steady_steps; exact (Hm st0)
      end
  end.

Lemma steady_switch E sid p m i : steady (switch E sid p m i).
Proof. destruct m; cbn [switch]; steady_steps. Qed.

Lemma steady_runPlaywright E sid m i : steady (runPlaywright E sid m i).
Proof.
  intros st. unfold runPlaywright.
  destruct (getSession sid st) as [s|]; [|apply evolves_refl].
  apply steady_try_catch; [apply steady_switch|].
  intros e. apply steady_bind; [apply steady_endSession|].
  intros _. apply steady_throw.
Qed.

Lemma steady_getDebugInfo E k : steady (getDebugInfo E k).
Proof.
  unfold getDebugInfo. apply steady_bind.
  { intros st. apply evolves_refl. }
  intros [s|]; [|apply steady_ret].
  steady_steps.
Qed.

(** *** Preservation of well-formedness *)

Lemma wf_initial E : wf E initial.
Proof.
  split; cbn.
  - intros i o Hi. now rewrite lookup_nil in Hi.
  - intros k s Hk. now rewrite lookup_empty in Hk.
  - intros k1 k2 s1 s2 Hk. now rewrite lookup_empty in Hk.
  - intros k s Hk. now rewrite lookup_empty in Hk.
Qed.

Lemma drawn_before_later E st st' k :
  (exists h, calls st' = h ++ calls st) ->
  drawn_before E st k -> drawn_before E st' k.
Proof.
  intros (h & Hc) (pre & h0 & Hpre & Hne & Hk).
  exists (h ++ pre), h0. rewrite Hc, Hpre, app_assoc.
  repeat split; [|exact Hk].
  destruct h; cbn; [exact Hne | discriminate].
Qed.

Lemma wf_evolves E st st' : wf E st -> evolves st st' -> wf E st'.
Proof.
  intros [Hh Hs Hb Hk] (Hsub & Hheap & Hcalls).
  rewrite map_subseteq_spec in Hsub.
  split.
  - now rewrite Hheap.
  - intros k s Hl. rewrite Hheap. eauto.
  - intros k1 k2 s1 s2 H1 H2. eauto.
  - intros k s Hl. eapply drawn_before_later; eauto.
Qed.

Lemma session_ok_bound h s :
  session_ok h s ->
  browser s < length h /\ context s < length h /\ page s < length h.
Proof.
  intros (Hb & Hc & Hp).
  repeat split; eapply lookup_lt_Some; eassumption.
Qed.

Lemma session_ok_app h o s : session_ok h s -> session_ok (h ++ o) s.
Proof.
  intros (Hb & Hc & Hp).
  repeat split; now apply lookup_app_l_Some.
Qed.

Lemma heap_ok_new_objs h n :
  heap_ok h -> heap_ok (h ++ firstn n (new_objs (length h))).
Proof.
  intros Hh i o Hi.
  destruct (decide (i < length h)) as [Hlt|Hge].
  - rewrite lookup_app_l in Hi by exact Hlt. now apply Hh.
  - rewrite lookup_app_r in Hi by lia.
    assert (Hin : exists j, i = length h + j /\
                            firstn n (new_objs (length h)) !! j = Some o).
    { exists (i - length h). split; [lia | exact Hi]. }
    destruct Hin as (j & -> & Hj). clear Hi Hge.
    apply lookup_take_Some in Hj as [Hj _].
    destruct j as [|[|[|j]]]; cbn in Hj;
      try discriminate; injection Hj as <-; cbn; try exact I; lia.
Qed.

Lemma new_objs_session_ok h :
  let b := length h in
  session_ok (h ++ new_objs b) (mkSession b (S b) (S (S b))).
Proof.
  cbn. unfold session_ok. cbn [browser context page].
  repeat split; rewrite lookup_app_r by lia.
  - now replace (length h - length h) with 0 by lia.
  - now replace (S (length h) - length h) with 1 by lia.
  - now replace (S (S (length h)) - length h) with 2 by lia.
Qed.

Lemma wf_createSession E st : wf E st -> wf E (snd (createSession E st)).
Proof.
  intros Hwf. destruct (acquisition_failure E st) as [x|] eqn:Hacq.
  - destruct (createSession_fails E st x Hacq) as (h & n & ->). cbn [snd].
    destruct Hwf as [Hh Hs Hb Hk]. split; cbn.
    + now apply heap_ok_new_objs.
    + intros k s Hl. apply session_ok_app. eauto.
    + exact Hb.
    + intros k s Hl. eapply drawn_before_later; [|eauto]. now exists h.
  - rewrite (createSession_ok E st Hacq). cbn [snd].
    destruct Hwf as [Hh Hs Hb Hk]. split; cbn.
    + apply (heap_ok_new_objs (heap st) 3 Hh).
    + intros k s Hl. apply lookup_insert_Some in Hl as [[_ <-]|[_ Hl]].
      * apply new_objs_session_ok.
      * apply session_ok_app. eauto.
    + intros k1 k2 s1 s2 H1 H2 Heq.
      apply lookup_insert_Some in H1 as [[<- <-]|[Hn1 H1]];
        apply lookup_insert_Some in H2 as [[<- <-]|[Hn2 H2]].
      * reflexivity.
      * apply Hs, session_ok_bound in H2. cbn in Heq. lia.
      * apply Hs, session_ok_bound in H1. cbn in Heq. lia.
      * eauto.
    + intros k s Hl.
      set (new := [CNewPage (S (length (heap st)));
                   CNewContext (length (heap st)); CLaunch; CUuidv4]).
      apply lookup_insert_Some in Hl as [[<- _]|[_ Hl]].
      * exists new, (calls st). repeat split. discriminate.
      * eapply drawn_before_later; [|eauto]. now exists new.
Qed.

Lemma wf_step E op st : wf E st -> wf E (step E op st).
Proof.
  intros Hwf. destruct op; cbn [step].
  - now apply wf_createSession.
  - eapply wf_evolves; [exact Hwf | apply steady_endSession].
  - exact Hwf.
  - eapply wf_evolves; [exact Hwf | apply steady_getDebugInfo].
  - eapply wf_evolves; [exact Hwf | apply steady_runPlaywright].
Qed.

Lemma wf_run_ops E ops st : wf E st -> wf E (run_ops E ops st).
Proof.
  revert st. induction ops as [|op ops IH]; intros st Hwf; [exact Hwf|].
  cbn. apply IH. now apply wf_step.
Qed.

Lemma wf_reachable E ops : wf E (run_ops E ops initial).
Proof. apply wf_run_ops, wf_initial. Qed.

(** C9: whatever the environment does, every state reached from the
    empty registry by [createSession], [endSession], [getSession],
    [getDebugInfo] and dispatcher calls has one entry per id and no
    browser in two entries; and a [createSession] that resolves there
    stores a browser that no entry held before. *)
Theorem registry_invariant E ops :
  registry_inv (run_ops E ops initial) /\
  (forall k st',
      createSession E (run_ops E ops initial) = (Return k, st') ->
      exists s,
        sessions st' !! k = Some s /\
        (forall k0 s0,
            sessions (run_ops E ops initial) !! k0 = Some s0 ->
            browser s0 < browser s)).
Proof.
  pose proof (wf_reachable E ops) as Hwf.
  set (st := run_ops E ops initial) in *.
  split.
  - split; [apply NoDup_fst_map_to_list | exact (wf_browsers E st Hwf)].
  - intros k st' Hcreate.
    destruct (acquisition_failure E st) as [x|] eqn:Hacq.
    + destruct (createSession_fails E st x Hacq) as (h & n & Hf).
      rewrite Hf in Hcreate. discriminate.
    + rewrite (createSession_ok E st Hacq) in Hcreate.
      injection Hcreate as <- <-. cbn [sessions].
      eexists. split; [apply lookup_insert_eq|].
      intros k0 s0 Hl. cbn [browser].
      now apply (wf_sessions E st Hwf), session_ok_bound in Hl.
Qed.

Lemma registry_invariant_witness :
  registry_inv (run_ops faulty
                  [OpCreate; OpCreate; OpRun "u" GOTO (Some (js "https://example.com"));
                   OpEnd "u"; OpDebug "uuuuu"; OpGet "u"] initial) /\
  sessions (run_ops faulty
              [OpCreate; OpCreate; OpRun "u" GOTO (Some (js "https://example.com"));
               OpEnd "u"; OpDebug "uuuuu"; OpGet "u"] initial) =
    {[ "u" := mkSession 0 1 2; "uuuuu" := mkSession 3 4 5 ]}.
Proof.
  split; [|reflexivity].
  apply (registry_invariant faulty
           [OpCreate; OpCreate; OpRun "u" GOTO (Some (js "https://example.com"));
            OpEnd "u"; OpDebug "uuuuu"; OpGet "u"]).
Defined.

(** *** A fresh session *)






(** * Further properties of the registry and of the dispatcher *)

(** ** Relations kept by every step of a dispatcher run *)

Section Keeps.

Variable R : State -> State -> Prop.
Hypothesis R_refl : forall st, R st st.
Hypothesis R_trans : forall a b c, R a b -> R b c -> R a c.

Definition keeps {A} (m : Async A) : Prop := forall st, R st (snd (m st)).

Lemma keeps_ret {A} (a : A) : keeps (ret a).
Proof. intros st. apply R_refl. Qed.

Lemma keeps_throw {A} e : keeps (@throw A e).
Proof. intros st. apply R_refl. Qed.

Lemma keeps_bind {A B} (m : Async A) (k : A -> Async B) :
  keeps m -> (forall a, keeps (k a)) -> keeps (bind m k).
Proof.
  intros Hm Hk st. unfold bind. specialize (Hm st).
  destruct (m st) as [[a|e] st1]; cbn [snd] in *; [|exact Hm].
  eapply R_trans; [exact Hm | apply Hk].
Qed.

Lemma keeps_try_catch {A} (m : Async A) (h : JsError -> Async A) :
  keeps m -> (forall e, keeps (h e)) -> keeps (try_catch m h).
Proof.
  intros Hm Hh st. unfold try_catch. specialize (Hm st).
  destruct (m st) as [[a|e] st1]; cbn [snd] in *; [exact Hm|].
  eapply R_trans; [exact Hm | apply Hh].
Qed.

Lemma keeps_require_instruction m i : keeps (require_instruction m i).
Proof. destruct i as [[|c s]|]; intros st; apply R_refl. Qed.

Variable E : Env.
Variable sid : string.
Variable p : handle.
Hypothesis R_page : forall c, on_page p c = true -> keeps (invoke E c).
Hypothesis R_end : keeps (endSession E sid).

Lemma on_page_refl_eqb : Nat.eqb p p = true.
Proof. apply Nat.eqb_refl. Qed.

Lemma keeps_act i : keeps (act E p i).
Proof.
  unfold act.
  repeat match goal with |- context [if ?b then _ else _] => destruct b end;
    first [apply R_page; apply on_page_refl_eqb | apply keeps_ret].
Qed.

Ltac keeps_steps :=
  cbv beta;
  lazymatch goal with
  | |- keeps (bind _ _) =>
      apply keeps_bind; [keeps_steps | intros ?; keeps_steps]
  | |- keeps (ret _) => apply keeps_ret
  | |- keeps (throw _) => apply keeps_throw
  | |- keeps (invoke _ _) => apply R_page; apply on_page_refl_eqb
  | |- keeps (act _ _ _) => apply keeps_act
  | |- keeps (endSession _ _) => apply R_end
  | |- keeps (require_instruction _ _) => apply keeps_require_instruction
  | |- keeps (fun st => _) =>
      let st0 := fresh "st" in
      intros st0; cbv beta;
      lazymatch goal with
      | |- R _ (snd (?m st0)) =>
          let Hm := fresh "Hm" in
          assert (Hm : keeps m) by keeps_steps; exact (Hm st0)
      end
  end.

Lemma keeps_switch m i : keeps (switch E sid p m i).
Proof. destruct m; cbn [switch]; keeps_steps. Qed.

Lemma keeps_guarded_switch m i :
  keeps (try_catch (switch E sid p m i)
           (fun error => endSession E sid ;; throw error)).
Proof.
  apply keeps_try_catch; [apply keeps_switch|].
  intros e. apply keeps_bind; [exact R_end|]. intros _. apply keeps_throw.
Qed.

End Keeps.

(** ** A call concerns one entry and one session's objects *)

Lemma only_drops_refl k st : only_drops k st st.
Proof. split; [reflexivity | now left]. Qed.

Lemma only_drops_trans k a b c :
  only_drops k a b -> only_drops k b c -> only_drops k a c.
Proof.
  intros [Hh [Hs|Hs]] [Hh' [Hs'|Hs']]; (split; [congruence|]);
    rewrite Hs', Hs; auto.
  right. apply delete_delete_eq.
Qed.

Lemma only_drops_invoke E k c : keeps (only_drops k) (invoke E c).
Proof.
  intros st. unfold invoke.
  destruct (rejects E (calls st) c); (split; [reflexivity | now left]).
Qed.

Lemma only_drops_endSession E k : keeps (only_drops k) (endSession E k).
Proof.
  intros st. destruct (sessions st !! k) as [s|] eqn:Hk.
  - destruct (released E st s) eqn:Hr.
    + rewrite (endSession_released E k s st Hk Hr). split; [reflexivity|now right].
    + destruct (endSession_not_released E k s st Hk Hr) as (x & h & ->).
      split; [reflexivity|now left].
  - rewrite (endSession_absent E k st Hk). split; [reflexivity|now left].
Qed.

Lemma only_drops_other k st st' k' :
  only_drops k st st' -> k' <> k -> sessions st' !! k' = sessions st !! k'.
Proof.
  intros [_ [->| ->]] Hne; [reflexivity|]. now apply lookup_delete_ne.
Qed.

(** X3: [endSession k] leaves the heap and every entry of the registry
    other than that of [k] as they were, whether it resolves or rejects. *)
Theorem endSession_touches_only_its_entry E k st :
  only_drops k st (snd (endSession E k st)) /\
  (forall k', k' <> k ->
     sessions (snd (endSession E k st)) !! k' = sessions st !! k').
Proof.
  pose proof (only_drops_endSession E k st) as H.
  split; [exact H|]. intros k' Hne. now apply only_drops_other with (k := k).
Qed.

(** X4: a dispatcher call on [sid] allocates nothing and changes no
    entry of the registry other than that of [sid], which it can only
    remove: the sessions of other ids survive every action on [sid],
    failed or not. *)
Theorem runPlaywright_touches_only_its_session E sid m i st :
  only_drops sid st (snd (runPlaywright E sid m i st)) /\
  (forall k, k <> sid ->
     sessions (snd (runPlaywright E sid m i st)) !! k = sessions st !! k).
Proof.
  assert (H : only_drops sid st (snd (runPlaywright E sid m i st))).
  { unfold runPlaywright. destruct (getSession sid st) as [s|];
      [|apply only_drops_refl].
    apply (keeps_guarded_switch (only_drops sid) (only_drops_refl sid)
             (only_drops_trans sid) E sid (page s)).
    - intros c _. apply only_drops_invoke.
    - apply only_drops_endSession. }
  split; [exact H|]. intros k Hne. now apply only_drops_other with (k := sid).
Qed.

Lemma owned_run_refl sid s st : owned_run sid s st st.
Proof. intros H. split; [exact H|]. now exists []. Qed.

Lemma owned_run_trans sid s a b c :
  owned_run sid s a b -> owned_run sid s b c -> owned_run sid s a c.
Proof.
  intros Hab Hbc Ha.
  destruct (Hab Ha) as (Hb & h & Hc & Ho).
  destruct (Hbc Hb) as (Hc' & h' & Hc'' & Ho').
  split; [exact Hc'|]. exists (h' ++ h). split.
  - rewrite Hc'', Hc. apply app_assoc.
  - rewrite forallb_app, Ho, Ho'. reflexivity.
Qed.

Lemma owned_run_invoke E sid s c :
  on_page (page s) c = true -> keeps (owned_run sid s) (invoke E c).
Proof.
  intros Hc st Hs. unfold invoke.
  destruct (rejects E (calls st) c); cbn [snd log sessions calls];
    (split; [exact Hs|]); exists [c]; (split; [reflexivity|]);
    cbn; unfold owned_by; now rewrite Hc.
Qed.

Lemma owned_by_releases s :
  owned_by s (CContextClose (context s)) = true /\
  owned_by s (CBrowserClose (browser s)) = true.
Proof. unfold owned_by. cbn. now rewrite !Nat.eqb_refl. Qed.

(** The release calls of [endSession] on a registered session: the
    context first, the browser only after the context is closed. *)
Lemma endSession_calls E k s st :
  sessions st !! k = Some s ->
  calls (snd (endSession E k st)) =
  match rejects E (calls st) (CContextClose (context s)) with
  | Some _ => [CContextClose (context s)]
  | None => [CBrowserClose (browser s); CContextClose (context s)]
  end ++ calls st.
Proof.
  intros Hk. run_async. rewrite Hk.
  case_rejects; [reflexivity|]. case_rejects; reflexivity.
Qed.

Lemma owned_run_endSession E sid s : keeps (owned_run sid s) (endSession E sid).
Proof.
  intros st Hs. destruct (owned_by_releases s) as [Hcx Hbr].
  destruct (sessions st !! sid) as [s'|] eqn:Hk.
  - assert (s' = s) by (destruct Hs as [Hs|Hs]; congruence). subst s'.
    split.
    + destruct (only_drops_endSession E sid st) as [_ [-> | ->]];
        [left; exact Hk | right; apply lookup_delete_eq].
    + rewrite (endSession_calls E sid s st Hk).
      destruct (rejects E (calls st) (CContextClose (context s)));
        eexists; (split; [reflexivity|]); cbn [forallb];
        now rewrite ?Hcx, ?Hbr.
  - pose proof (endSession_absent E sid st Hk) as Hn.
    unfold endSession_noop in Hn. rewrite Hn. cbn [snd sessions calls].
    split; [right; exact Hk|]. exists []. split; reflexivity.
Qed.

(** X5: every call a dispatcher run on [sid] makes is a call on the page
    of the session registered under [sid], or the release of that
    session's context or browser: an action never reaches the objects of
    another session. *)
Theorem runPlaywright_calls_own_objects E sid s m i st :
  getSession sid st = Some s ->
  exists h,
    calls (snd (runPlaywright E sid m i st)) = h ++ calls st /\
    forallb (owned_by s) h = true.
Proof.
  intros Hget. unfold runPlaywright. rewrite Hget.
  pose proof (keeps_guarded_switch (owned_run sid s) (owned_run_refl sid s)
                (owned_run_trans sid s) E sid (page s)
                (fun c Hc => owned_run_invoke E sid s c Hc)
                (owned_run_endSession E sid s) m i st) as H.
  destruct H as (_ & h & Hc & Ho); [left; exact Hget|].
  now exists h.
Qed.

Lemma runPlaywright_calls_own_objects_witness :
  getSession "u" live = Some live_session /\
  exists h,
    calls (snd (runPlaywright faulty "u" GOTO (Some (js "https://example.com")) live)) =
      h ++ calls live /\
    forallb (owned_by live_session) h = true.
Proof.
  split; [reflexivity|].
  apply (runPlaywright_calls_own_objects faulty "u" live_session GOTO
           (Some (js "https://example.com")) live).
  reflexivity.
Defined.

(** ** [endSession] and [getDebugInfo] *)

(** X2: on a registered session [endSession] closes the context first.
    When that rejects, [endSession] rejects at once: [browser.close()] is
    not called and the entry stays.  Otherwise [browser.close()] is
    called next. *)
Theorem endSession_release_order E k s st :
  sessions st !! k = Some s ->
  match rejects E (calls st) (CContextClose (context s)) with
  | Some x =>
      endSession E k st =
      (Throw (Rejected x),
       mkState (sessions st) (heap st)
         (CContextClose (context s) :: calls st) (k :: teardowns st))
  | None =>
      calls (snd (endSession E k st)) =
      CBrowserClose (browser s) :: CContextClose (context s) :: calls st
  end.
Proof.
  intros Hk. run_async. rewrite Hk.
  case_rejects; [reflexivity|]. case_rejects; reflexivity.
Qed.

Lemma endSession_release_order_witness :
  sessions live !! "u" = Some live_session /\
  endSession faulty "u" live =
    (Throw (Rejected 2),
     mkState (sessions live) (heap live)
       (CContextClose 1 :: calls live) ["u"]).
Proof.
  split; [reflexivity|].
  exact (endSession_release_order faulty "u" live_session live eq_refl).
Defined.

(** X1: [getDebugInfo] only reads the registry: it never removes or
    changes an entry and never invokes [endSession].  For an id that is
    not registered it resolves with the empty object and calls nothing;
    for a registered one it takes one screenshot of the session's page,
    and rejects with the screenshot's error when that fails, the session
    staying registered. *)
Theorem getDebugInfo_reads_only E k st :
  sessions (snd (getDebugInfo E k st)) = sessions st /\
  heap (snd (getDebugInfo E k st)) = heap st /\
  teardowns (snd (getDebugInfo E k st)) = teardowns st /\
  match sessions st !! k with
  | None => getDebugInfo E k st = (Return None, st)
  | Some s =>
      calls (snd (getDebugInfo E k st)) = CScreenshot (page s) :: calls st /\
      fst (getDebugInfo E k st) =
        match rejects E (calls st) (CScreenshot (page s)) with
        | Some x => Throw (Rejected x)
        | None => Return (Some (screenshotBase64 E (calls st) (page s)))
        end
  end.
Proof.
  run_async. destruct (sessions st !! k) as [s|]; [|repeat split].
  case_rejects; repeat split.
Qed.

Lemma getDebugInfo_reads_only_witness :
  fst (getDebugInfo blind "u" live) = Throw (Rejected 4) /\
  sessions (snd (getDebugInfo blind "u" live)) = sessions live /\
  getDebugInfo blind "nobody" live = (Return None, live).
Proof.
  pose proof (getDebugInfo_reads_only blind "u" live) as (H1 & _ & _ & H2).
  pose proof (getDebugInfo_reads_only blind "nobody" live) as (_ & _ & _ & H3).
  split; [exact (proj2 H2) | split; [exact H1 | exact H3]].
Defined.

(** ** Resolved dispatcher calls *)

Lemma runPlaywright_resolves_inv E sid m i v st st' :
  runPlaywright E sid m i st = (Return v, st') ->
  exists s,
    getSession sid st = Some s /\
    switch E sid (page s) m i st = (Return v, st').
Proof.
  unfold runPlaywright, try_catch. intros Hrun.
  destruct (getSession sid st) as [s|]; [|discriminate].
  exists s. split; [reflexivity|].
  destruct (switch E sid (page s) m i st) as [[v'|e] st1]; [exact Hrun|].
  unfold bind, throw in Hrun.
  destruct (endSession E sid st1) as [[[]|e'] st2]; discriminate.
Qed.

Lemma endSession_resolved_gone E k st st1 :
  endSession E k st = (Return tt, st1) ->
  sessions st1 = delete k (sessions st) /\
  teardowns st1 = k :: teardowns st /\
  heap st1 = heap st.
Proof.
  intros Hend. destruct (sessions st !! k) as [s|] eqn:Hk.
  - destruct (released E st s) eqn:Hr.
    + rewrite (endSession_released E k s st Hk Hr) in Hend.
      injection Hend as <-. repeat split.
    + destruct (endSession_not_released E k s st Hk Hr) as (x & h & Hx).
      rewrite Hx in Hend. discriminate.
  - pose proof (endSession_absent E k st Hk) as Hn.
    unfold endSession_noop in Hn. rewrite Hn in Hend.
    injection Hend as <-. cbn. repeat split.
    symmetry. now apply delete_id.
Qed.

(** A [switch] that returns has left registry, heap and teardown record
    alone, unless the method is [CLOSE]; and what it returns has the
    shape of its method. *)
Lemma switch_return E sid p m instr v st st1 :
  switch E sid p m instr st = (Return v, st1) ->
  result_shape m instr v /\
  (m <> CLOSE ->
   sessions st1 = sessions st /\ heap st1 = heap st /\
   teardowns st1 = teardowns st).
Proof.
  intros Hsw. destruct m; cbn [switch result_shape] in *.
  1-4, 7: destruct instr as [[|c i]|]; unfold bind, require_instruction, throw,
    ret in Hsw; try discriminate.
  all: try (unfold act in Hsw;
            repeat match type of Hsw with
              | context [if ?b then _ else _] => destruct b
              end).
  all: unfold bind, invoke, ret, log in Hsw.
  all: try (match type of Hsw with
            | context [rejects ?E ?h ?c] => destruct (rejects E h c)
            end; try discriminate).
  all: try (invert_pair; cbn; split; [eauto | intros _; repeat split]).
  - destruct (textContent E (calls st) p (c :: i)); eauto.
  - destruct (endSession E sid st) as [[[]|e'] st'] eqn:Hend; [|discriminate].
    invert_pair. split; [reflexivity | intros Hne; contradiction].
Qed.

(** X7: when a dispatcher call with a method other than [CLOSE]
    resolves, the id was registered, and registry, heap and the record of
    [endSession] invocations are what they were: a successful action
    keeps its session and tears nothing down. *)
Theorem runPlaywright_success_keeps_session E sid m i v st st' :
  runPlaywright E sid m i st = (Return v, st') ->
  m <> CLOSE ->
  is_Some (getSession sid st) /\
  sessions st' = sessions st /\
  heap st' = heap st /\
  teardowns st' = teardowns st.
Proof.
  intros Hrun Hm.
  destruct (runPlaywright_resolves_inv _ _ _ _ _ _ _ Hrun) as (s & Hget & Hsw).
  split; [rewrite Hget; eauto|].
  now apply (switch_return _ _ _ _ _ _ _ _ Hsw).
Qed.

Lemma runPlaywright_success_keeps_session_witness :
  runPlaywright calm "u" EXTRACT (Some (js "h1")) live =
    (Return (VString (js "Example Domain")), log (CEval 2 (js "h1")) live) /\
  sessions (log (CEval 2 (js "h1")) live) = sessions live.
Proof.
  split; [reflexivity|].
  pose proof (runPlaywright_success_keeps_session calm "u" EXTRACT (Some (js "h1"))
                (VString (js "Example Domain")) live (log (CEval 2 (js "h1")) live)
                eq_refl ltac:(discriminate)) as (_ & H & _).
  exact H.
Defined.

(** X9: what a resolved dispatcher call returns depends on the method
    only: [undefined] for [GOTO], [ACT], [WAIT], [NAVBACK] and [CLOSE];
    a string or [null] for [EXTRACT]; a string for [SCREENSHOT]; and for
    [OBSERVE] the object holding the instruction it was given. *)
Theorem runPlaywright_result_shape E sid m i v st st' :
  runPlaywright E sid m i st = (Return v, st') ->
  result_shape m i v.
Proof.
  intros Hrun.
  destruct (runPlaywright_resolves_inv _ _ _ _ _ _ _ Hrun) as (s & Hget & Hsw).
  now apply (switch_return _ _ _ _ _ _ _ _ Hsw).
Qed.

Lemma runPlaywright_result_shape_witness :
  runPlaywright calm "u" OBSERVE (Some (js "#ready")) live =
    (Return (VObserved (js "#ready")), log (CWaitForSelector 2 (js "#ready")) live) /\
  result_shape OBSERVE (Some (js "#ready")) (VObserved (js "#ready")).
Proof.
  split; [reflexivity|].
  exact (runPlaywright_result_shape calm "u" OBSERVE (Some (js "#ready"))
           (VObserved (js "#ready")) live (log (CWaitForSelector 2 (js "#ready")) live)
           eq_refl).
Defined.

(** ** [CLOSE] and the methods without instruction *)

(** X6: [SCREENSHOT], [NAVBACK] and [CLOSE] never look at the
    instruction: the run with any instruction is the run without one. *)
Theorem runPlaywright_ignores_instruction E sid m i st :
  needs_instruction m = false ->
  runPlaywright E sid m i st = runPlaywright E sid m None st.
Proof. intros Hm. destruct m; try discriminate; reflexivity. Qed.

Lemma runPlaywright_ignores_instruction_witness :
  runPlaywright calm "u" NAVBACK (Some (js "twice")) live =
  runPlaywright calm "u" NAVBACK None live.
Proof.
  exact (runPlaywright_ignores_instruction calm "u" NAVBACK (Some (js "twice")) live
           eq_refl).
Defined.

(** X8: [CLOSE] on a registered session whose release calls resolve is
    [endSession]: the call resolves with [undefined] in the state
    [endSession] leaves, [endSession] has been invoked once, no call on
    the page was made and the session is gone. *)
Theorem runPlaywright_close_is_endSession E sid s i st :
  getSession sid st = Some s ->
  released E st s = true ->
  runPlaywright E sid CLOSE i st = (Return VUndefined, snd (endSession E sid st)) /\
  getSession sid (snd (runPlaywright E sid CLOSE i st)) = None /\
  teardowns (snd (runPlaywright E sid CLOSE i st)) = sid :: teardowns st /\
  page_calls (calls (snd (runPlaywright E sid CLOSE i st))) = page_calls (calls st).
Proof.
  intros Hget Hrel.
  assert (Hrun : runPlaywright E sid CLOSE i st =
                 (Return VUndefined, snd (endSession E sid st))).
  { unfold runPlaywright, try_catch. rewrite Hget. cbn [switch]. unfold bind.
    rewrite (endSession_released E sid s st Hget Hrel). reflexivity. }
  rewrite Hrun. cbn [snd]. split; [reflexivity|].
  rewrite (endSession_released E sid s st Hget Hrel). unfold getSession. cbn.
  repeat split. apply lookup_delete_eq.
Qed.

Lemma runPlaywright_close_is_endSession_witness :
  getSession "u" live = Some live_session /\
  released calm live live_session = true /\
  runPlaywright calm "u" CLOSE None live =
    (Return VUndefined, snd (endSession calm "u" live)) /\
  getSession "u" (snd (runPlaywright calm "u" CLOSE None live)) = None.
Proof.
  split; [reflexivity|]. split; [reflexivity|].
  pose proof (runPlaywright_close_is_endSession calm "u" live_session None live
                eq_refl eq_refl) as (H1 & H2 & _).
  split; [exact H1 | exact H2].
Defined.

(** X11: once a [CLOSE] has resolved, the id is dead for the dispatcher
    but not for the registry: every further dispatcher call on it, a
    second [CLOSE] included, throws without doing anything, while
    [getDebugInfo] resolves with the empty object and [endSession] is a
    no-op. *)
Theorem close_then_use E sid i v st st' :
  runPlaywright E sid CLOSE i st = (Return v, st') ->
  getSession sid st' = None /\
  (forall m' i',
      runPlaywright E sid m' i' st' = (Throw TypeErrorUndefinedSession, st')) /\
  getDebugInfo E sid st' = (Return None, st') /\
  endSession_noop E sid st'.
Proof.
  intros Hrun.
  destruct (runPlaywright_resolves_inv _ _ _ _ _ _ _ Hrun) as (s & Hget & Hsw).
  cbn [switch] in Hsw. unfold bind, ret in Hsw.
  destruct (endSession E sid st) as [[[]|e] st1] eqn:Hend; [|discriminate].
  injection Hsw as _ <-.
  destruct (endSession_resolved_gone E sid st st1 Hend) as (Hs & _).
  assert (Hgone : sessions st1 !! sid = None)
    by (rewrite Hs; apply lookup_delete_eq).
  split; [exact Hgone|]. split; [|split].
  - intros m' i'. unfold runPlaywright, getSession. now rewrite Hgone.
  - unfold getDebugInfo, bind, sessions_get, ret. now rewrite Hgone.
  - now apply endSession_absent.
Qed.

Lemma close_then_use_witness :
  runPlaywright calm "u" CLOSE None live =
    (Return VUndefined, snd (endSession calm "u" live)) /\
  runPlaywright calm "u" CLOSE None (snd (endSession calm "u" live)) =
    (Throw TypeErrorUndefinedSession, snd (endSession calm "u" live)) /\
  getDebugInfo calm "u" (snd (endSession calm "u" live)) =
    (Return None, snd (endSession calm "u" live)).
Proof.
  split; [reflexivity|].
  pose proof (close_then_use calm "u" None VUndefined live
                (snd (endSession calm "u" live)) eq_refl) as (_ & H1 & H2 & _).
  split; [exact (H1 CLOSE None) | exact H2].
Defined.

(** ** One page call per action *)

Lemma caught_read_invoke_page_calls E sid c (f : State -> JsValue) st :
  is_page_call c = true ->
  page_calls (calls (snd (try_catch (fun st0 => (invoke E c ;; ret (f st0)) st0)
                            (fun error => endSession E sid ;; throw error) st))) =
  c :: page_calls (calls st).
Proof.
  intros Hc.
  exact (caught_invoke_page_calls E sid c (f st) st Hc).
Qed.

(** X10: for a registered session and a non-empty instruction, every
    method but [ACT] makes its one call on the page ([CLOSE] makes none)
    with the instruction as it was given, untrimmed and unparsed
    ([WAIT] hands [Number(instruction)] to the page; the call records the
    instruction), and makes no other call on the page, whether the call
    resolves or rejects and the handler runs. *)
Theorem runPlaywright_single_page_call E sid s m i st :
  getSession sid st = Some s ->
  m <> ACT ->
  i <> [] ->
  page_calls (calls (snd (runPlaywright E sid m (Some i) st))) =
  primitive_of m (page s) i ++ page_calls (calls st).
Proof.
  intros Hget Hm Hi. destruct i as [|c i]; [contradiction|].
  unfold runPlaywright. rewrite Hget.
  destruct m; try contradiction; cbn [switch primitive_of require_instruction];
    try (change (bind (ret (c :: i)) ?k) with (k (c :: i)); cbv beta).
  - now rewrite caught_invoke_page_calls.
  - now rewrite caught_read_invoke_page_calls.
  - now rewrite caught_invoke_page_calls.
  - unfold try_catch, bind at 1.
    pose proof (endSession_page_calls E sid st) as Hp.
    destruct (endSession E sid st) as [[[]|e] st1]; cbn [snd] in Hp;
      [exact Hp|].
    unfold bind, throw.
    pose proof (endSession_page_calls E sid st1) as Hp1.
    destruct (endSession E sid st1) as [[[]|e'] st2]; cbn [snd] in *;
      now rewrite Hp1.
  - now rewrite caught_read_invoke_page_calls.
  - now rewrite caught_invoke_page_calls.
  - now rewrite caught_invoke_page_calls.
Qed.

Lemma runPlaywright_single_page_call_witness :
  getSession "u" live = Some live_session /\
  page_calls (calls (snd (runPlaywright offline "u" GOTO (Some (js " about:blank ")) live))) =
    [CGoto 2 (js " about:blank ")] /\
  page_calls (calls (snd (runPlaywright calm "u" WAIT (Some (js "soon")) live))) =
    [CWaitForTimeout 2 (js "soon")].
Proof.
  split; [reflexivity|].
  split.
  - exact (runPlaywright_single_page_call offline "u" live_session GOTO
             (js " about:blank ") live eq_refl ltac:(discriminate) ltac:(discriminate)).
  - exact (runPlaywright_single_page_call calm "u" live_session WAIT
             (js "soon") live eq_refl ltac:(discriminate) ltac:(discriminate)).
Defined.

(** ** [createSession]: what is left behind *)

Lemma createSession_acquires_only E st :
  teardowns (snd (createSession E st)) = teardowns st /\
  exists h,
    calls (snd (createSession E st)) = h ++ calls st /\
    forallb is_acquisition h = true.
Proof.
  destruct (acquisition_failure E st) as [x|] eqn:Hacq.
  - revert Hacq. unfold acquisition_failure. intros Hacq. run_async.
    case_rejects.
    { split; [reflexivity|]. now exists [CLaunch; CUuidv4]. }
    case_rejects.
    { split; [reflexivity|].
      now exists [CNewContext (length (heap st)); CLaunch; CUuidv4]. }
    case_rejects; [|discriminate].
    split; [reflexivity|]. rewrite ?length_snoc.
    now exists [CNewPage (S (length (heap st))); CNewContext (length (heap st));
                CLaunch; CUuidv4].
  - rewrite (createSession_ok E st Hacq). cbn [snd teardowns calls].
    split; [reflexivity|].
    now exists [CNewPage (S (length (heap st))); CNewContext (length (heap st));
                CLaunch; CUuidv4].
Qed.

Lemma createSession_fails_after_launch E st x :
  rejects E (CUuidv4 :: calls st) CLaunch = None ->
  acquisition_failure E st = Some x ->
  fst (createSession E st) = Throw (Rejected x) /\
  sessions (snd (createSession E st)) = sessions st /\
  exists o, heap (snd (createSession E st)) = heap st ++ BrowserObj :: o.
Proof.
  unfold acquisition_failure. intros Hl Hacq. rewrite Hl in Hacq. run_async.
  case_rejects; [discriminate|].
  case_rejects.
  { injection Hacq as <-. repeat split. now exists []. }
  case_rejects; [|discriminate].
  injection Hacq as <-. repeat split.
  exists [ContextObj (length (heap st))]. now rewrite <- app_assoc.
Qed.

(** X12: [createSession] never releases anything.  When the browser has
    been launched and the context or the page cannot be created,
    [createSession] rejects with that error and the browser it launched is
    on the heap, in no entry of the registry, and not closed: the only
    calls made are the id draw and the acquisitions, and [endSession] is
    not invoked. *)
Theorem createSession_failure_leaks_browser E ops x :
  let st := run_ops E ops initial in
  rejects E (CUuidv4 :: calls st) CLaunch = None ->
  acquisition_failure E st = Some x ->
  let st' := snd (createSession E st) in
  fst (createSession E st) = Throw (Rejected x) /\
  heap st' !! length (heap st) = Some BrowserObj /\
  (forall k s, sessions st' !! k = Some s -> browser s < length (heap st)) /\
  teardowns st' = teardowns st /\
  exists h, calls st' = h ++ calls st /\ forallb is_acquisition h = true.
Proof.
  intros st Hl Hacq st'. subst st'.
  destruct (createSession_fails_after_launch E st x Hl Hacq) as (Hr & Hs & o & Hh).
  destruct (createSession_acquires_only E st) as (Ht & Hc).
  split; [exact Hr|]. split; [|split; [|split; [exact Ht | exact Hc]]].
  - rewrite Hh. rewrite lookup_app_r by lia.
    now replace (length (heap st) - length (heap st)) with 0 by lia.
  - intros k s Hk. rewrite Hs in Hk.
    now apply (wf_sessions E st (wf_reachable E ops)), session_ok_bound in Hk.
Qed.

Lemma createSession_failure_leaks_browser_witness :
  fst (createSession half_open (run_ops half_open [OpCreate] initial)) =
    Throw (Rejected 3) /\
  heap (snd (createSession half_open (run_ops half_open [OpCreate] initial))) =
    [BrowserObj; BrowserObj] /\
  sessions (snd (createSession half_open (run_ops half_open [OpCreate] initial))) = ∅.
Proof.
  pose proof (createSession_failure_leaks_browser half_open [OpCreate] 3
                eq_refl eq_refl) as (H & _).
  split; [exact H|]. split; reflexivity.
Defined.

(** X13: [createSession] does not look the drawn id up.  When the
    generator returns an id that is already registered, the call
    resolves with that id and its new session takes the place of the
    earlier one: the ids of the registry are those of before, the earlier
    session's browser is older than the new one, and nothing of the
    earlier session is released ([endSession] is not invoked, no release
    call is made). *)
Theorem createSession_overwrites_repeated_id E ops old :
  let st := run_ops E ops initial in
  acquisition_failure E st = None ->
  sessions st !! uuidv4 E (calls st) = Some old ->
  let st' := snd (createSession E st) in
  let b := length (heap st) in
  fst (createSession E st) = Return (uuidv4 E (calls st)) /\
  sessions st' !! uuidv4 E (calls st) = Some (mkSession b (S b) (S (S b))) /\
  browser old < b /\
  dom (sessions st') = dom (sessions st) /\
  teardowns st' = teardowns st /\
  exists h, calls st' = h ++ calls st /\ forallb is_acquisition h = true.
Proof.
  intros st Hacq Hold st' b. subst st' b.
  destruct (createSession_acquires_only E st) as (Ht & Hc).
  rewrite (createSession_ok E st Hacq) in *. cbn [fst snd sessions] in *.
  split; [reflexivity|]. split; [apply lookup_insert_eq|].
  split; [|split; [|split; [exact Ht | exact Hc]]].
  - now apply (wf_sessions E st (wf_reachable E ops)), session_ok_bound in Hold.
  - apply dom_insert_lookup_L. rewrite Hold. eauto.
Qed.

Lemma createSession_overwrites_repeated_id_witness :
  sessions (run_ops stutter [OpCreate] initial) !! "dup" = Some (mkSession 0 1 2) /\
  fst (createSession stutter (run_ops stutter [OpCreate] initial)) = Return "dup" /\
  sessions (snd (createSession stutter (run_ops stutter [OpCreate] initial))) =
    {[ "dup" := mkSession 3 4 5 ]}.
Proof.
  split; [reflexivity|].
  pose proof (createSession_overwrites_repeated_id stutter [OpCreate]
                (mkSession 0 1 2) eq_refl eq_refl) as (H & _).
  split; [exact H | reflexivity].
Defined.

(** ** Reachable registries *)

(** X15: in every state reached from the empty registry, a registered
    session holds a browser, a context of that browser and a page of
    that context, and the sessions of two different ids share neither
    browser, nor context, nor page. *)
Theorem sessions_own_their_objects E ops k1 k2 s1 s2 :
  let st := run_ops E ops initial in
  sessions st !! k1 = Some s1 ->
  sessions st !! k2 = Some s2 ->
  k1 <> k2 ->
  session_ok (heap st) s1 /\
  browser s1 <> browser s2 /\
  context s1 <> context s2 /\
  page s1 <> page s2.
Proof.
  intros st H1 H2 Hne.
  pose proof (wf_reachable E ops) as Hwf. fold st in Hwf.
  pose proof (wf_sessions E st Hwf k1 s1 H1) as (Hb1 & Hc1 & Hp1).
  pose proof (wf_sessions E st Hwf k2 s2 H2) as (Hb2 & Hc2 & Hp2).
  assert (Hb : browser s1 <> browser s2).
  { intros Heq. apply Hne. exact (wf_browsers E st Hwf k1 k2 s1 s2 H1 H2 Heq). }
  assert (Hc : context s1 <> context s2).
  { intros Heq. apply Hb. rewrite Heq in Hc1. congruence. }
  split; [repeat split; assumption|].
  split; [exact Hb|]. split; [exact Hc|].
  intros Heq. apply Hc. rewrite Heq in Hp1. congruence.
Qed.

Lemma sessions_own_their_objects_witness :
  sessions (run_ops calm [OpCreate; OpCreate] initial) !! "u" =
    Some (mkSession 0 1 2) /\
  sessions (run_ops calm [OpCreate; OpCreate] initial) !! "uuuuu" =
    Some (mkSession 3 4 5) /\
  session_ok (heap (run_ops calm [OpCreate; OpCreate] initial)) (mkSession 0 1 2).
Proof.
  split; [reflexivity|]. split; [reflexivity|].
  pose proof (sessions_own_their_objects calm [OpCreate; OpCreate] "u" "uuuuu"
                (mkSession 0 1 2) (mkSession 3 4 5) eq_refl eq_refl
                ltac:(discriminate)) as (H & _).
  exact H.
Defined.



(** ** How often a call tears down *)

(** X17: a dispatcher call on a registered session invokes [endSession]
    for its own id only, once if the method is [CLOSE] and once more if
    the call rejects: never for a call that resolves with another method,
    twice for a [CLOSE] that rejects. *)
Theorem runPlaywright_teardown_count E sid s m i st :
  getSession sid st = Some s ->
  teardowns (snd (runPlaywright E sid m i st)) =
  repeat sid (teardown_count m (fst (runPlaywright E sid m i st))) ++ teardowns st.
Proof.
  intros Hget. unfold runPlaywright, try_catch. rewrite Hget.
  destruct (switch E sid (page s) m i st) as [[v|e] st1] eqn:Hsw.
  - cbn [fst snd].
    assert (Hd : m = CLOSE \/ m <> CLOSE)
      by (destruct m; first [now left | right; discriminate]).
    destruct Hd as [->|Hm].
    + cbn [switch] in Hsw. unfold bind, ret in Hsw.
      destruct (endSession E sid st) as [[[]|e] st2] eqn:Hend; [|discriminate].
      injection Hsw as _ <-.
      now destruct (endSession_resolved_gone E sid st st2 Hend) as (_ & -> & _).
    + destruct (switch_return _ _ _ _ _ _ _ _ Hsw) as (_ & Hk).
      destruct (Hk Hm) as (_ & _ & ->). destruct m; try contradiction; reflexivity.
  - destruct (switch_throw_keeps _ _ _ _ _ _ _ _ Hsw) as (_ & Ht).
    unfold bind, throw.
    pose proof (endSession_teardowns E sid st1) as Hend.
    destruct (endSession E sid st1) as [[[]|e'] st2]; cbn [fst snd] in *;
      rewrite Hend, Ht; destruct m; reflexivity.
Qed.

Lemma runPlaywright_teardown_count_witness :
  getSession "u" live = Some live_session /\
  teardowns (snd (runPlaywright faulty "u" CLOSE None live)) = ["u"; "u"] /\
  teardowns (snd (runPlaywright calm "u" SCREENSHOT None live)) = [].
Proof.
  split; [reflexivity|]. split.
  - exact (runPlaywright_teardown_count faulty "u" live_session CLOSE None live
             eq_refl).
  - exact (runPlaywright_teardown_count calm "u" live_session SCREENSHOT None live
             eq_refl).
Defined.

(** ** [ACT type] without text *)

Lemma split_lacks sep s : lacks sep s = true -> JsString.split sep s = [s].
Proof.
  induction s as [|c s IH]; cbn [lacks JsString.split]; intros Hl;
    [reflexivity|].
  apply andb_prop in Hl as [Hc Hl]. apply negb_true_iff in Hc.
  now rewrite Hc, (IH Hl).
Qed.

(** X14: [ACT] with an instruction that starts with [type] and has no
    text still fills.  With a selector free of spaces after [type ] the
    fill is on that selector with the empty text; with no space in the
    instruction at all there is no second token, and the fill is called
    with an undefined selector and the empty text. *)
Theorem act_type_without_text E sid s st :
  getSession sid st = Some s ->
  (forall sel,
      lacks space sel = true ->
      page_calls (calls (snd (runPlaywright E sid ACT
                                (Some (js "type " ++ sel)) st))) =
      CFill (page s) (Some sel) [] :: page_calls (calls st)) /\
  (forall rest,
      lacks space rest = true ->
      page_calls (calls (snd (runPlaywright E sid ACT
                                (Some (js "type" ++ rest)) st))) =
      CFill (page s) None [] :: page_calls (calls st)).
Proof.
  intros Hget. split.
  - intros sel Hsel.
    change (js "type " ++ sel) with (116%N :: js "ype " ++ sel).
    rewrite (runPlaywright_act E sid s _ _ st Hget). unfold act.
    change (116%N :: js "ype " ++ sel) with (js "type" ++ space :: sel).
    assert (Hclick : JsString.startsWith
                       (js "type" ++ space :: sel) (js "click") = false)
      by reflexivity.
    assert (Htype : JsString.startsWith
                      (js "type" ++ space :: sel) (js "type") = true)
      by reflexivity.
    rewrite Hclick, Htype.
    rewrite (JsStringFacts.split_first_token space (js "type") sel eq_refl).
    rewrite (split_lacks space sel Hsel).
    now rewrite caught_invoke_page_calls.
  - intros rest Hrest.
    change (js "type" ++ rest) with (116%N :: js "ype" ++ rest).
    rewrite (runPlaywright_act E sid s _ _ st Hget). unfold act.
    change (116%N :: js "ype" ++ rest) with (js "type" ++ rest).
    assert (Hclick : JsString.startsWith (js "type" ++ rest) (js "click") = false)
      by reflexivity.
    assert (Htype : JsString.startsWith (js "type" ++ rest) (js "type") = true)
      by reflexivity.
    rewrite Hclick, Htype.
    assert (Hl : lacks space (js "type" ++ rest) = true) by exact Hrest.
    rewrite (split_lacks space _ Hl).
    now rewrite caught_invoke_page_calls.
Qed.

Lemma act_type_without_text_witness :
  getSession "u" live = Some live_session /\
  page_calls (calls (snd (runPlaywright calm "u" ACT (Some (js "type #q")) live))) =
    [CFill 2 (Some (js "#q")) []] /\
  page_calls (calls (snd (runPlaywright calm "u" ACT (Some (js "typewriter")) live))) =
    [CFill 2 None []].
Proof.
  split; [reflexivity|].
  destruct (act_type_without_text calm "u" live_session live eq_refl) as [H1 H2].
  split; [exact (H1 (js "#q") eq_refl) | exact (H2 (js "writer") eq_refl)].
Defined.

(** ** Only [createSession] registers *)

(** X18: a sequence of [endSession], [getSession], [getDebugInfo] and
    dispatcher calls, started in any state, adds no entry to the registry
    and changes none: every entry there at the end was there, with the
    same session, at the start; and the heap is the same. *)
Theorem only_createSession_registers E ops st :
  no_create ops = true ->
  sessions (run_ops E ops st) ⊆ sessions st /\
  heap (run_ops E ops st) = heap st.
Proof.
  revert st. induction ops as [|op ops IH]; intros st Hops; [now split|].
  cbn [no_create forallb] in Hops. apply andb_prop in Hops as [Hop Hops].
  cbn [run_ops fold_left]. destruct (IH (step E op st) Hops) as [Hs Hh].
  assert (Hstep : evolves st (step E op st)).
  { destruct op; cbn [step]; try discriminate.
    - apply steady_endSession.
    - apply evolves_refl.
    - apply steady_getDebugInfo.
    - apply steady_runPlaywright. }
  destruct Hstep as (Hs' & Hh' & _).
  split; [now transitivity (sessions (step E op st)) |].
  rewrite <- Hh'. exact Hh.
Qed.

Lemma only_createSession_registers_witness :
  sessions (run_ops faulty
              [OpRun "u" GOTO (Some (js "https://example.com")); OpDebug "u";
               OpRun "u" CLOSE None; OpEnd "u"] live) ⊆ sessions live /\
  sessions (run_ops calm [OpRun "u" NAVBACK None; OpEnd "u"] live) = ∅.
Proof.
  split; [|reflexivity].
  apply (only_createSession_registers faulty
           [OpRun "u" GOTO (Some (js "https://example.com")); OpDebug "u";
            OpRun "u" CLOSE None; OpEnd "u"] live eq_refl).
Defined.
